(** * Family Genealogy Platform: authentication and access control

    A shallow embedding of the backend of the family-genealogy platform
    ([1-backend/auth/google.py], [1-backend/db/models.py] and
    [1-backend/main.py]) and the properties of its token, access-store and
    flow-controller code.

    Conventions of the embedding.
    - Python [str] is [string]. The functions of [Str] are the ASCII ones;
      where the text of a request meets Python's Unicode-aware [lower],
      [strip], [title] and [len], the code takes them as a [PyStr.t].
    - A [datetime] is a number of microseconds since the epoch ([Z]); every
      [datetime.now(timezone.utc)] of one request reads the same instant,
      the argument [now] of the request.
    - A Python [dict] with string keys is a [gmap string pyval].
    - The relational store is a record of tables, each a list of rows in
      insertion order; a handler is a function from the store to an outcome
      and the store it leaves behind, so that rows committed before an
      exception stay committed.
    - The third-party collaborators (the identity provider, the mail
      transport, the random source, the PyJWT library) are arguments or small
      models, each introduced where it is used. *)

From Stdlib Require Import ZArith Ascii String.
From stdpp Require Import base option list strings gmap pretty.

Local Open Scope string_scope.
Local Open Scope Z_scope.

(** ** Python strings *)

Module Str.

(** [prefix.startswith] in Python is [s.startswith(prefix)]. *)
Fixpoint startswith (prefix s : string) : bool :=
  match prefix, s with
  | EmptyString, _ => true
  | String a p, String b r => if Ascii.eqb a b then startswith p r else false
  | String _ _, EmptyString => false
  end.

(** [c in s] for a character [c]. *)
Fixpoint contains (c : ascii) (s : string) : bool :=
  match s with
  | EmptyString => false
  | String a r => if Ascii.eqb a c then true else contains c r
  end.

(** The text before and after the first occurrence of [c]. *)
Fixpoint split_once (c : ascii) (s : string) : option (string * string) :=
  match s with
  | EmptyString => None
  | String a r =>
      if Ascii.eqb a c then Some (EmptyString, r)
      else match split_once c r with
           | Some (x, y) => Some (String a x, y)
           | None => None
           end
  end.

(** [s.split(c, maxsplit)]. *)
Fixpoint split (c : ascii) (maxsplit : nat) (s : string) : list string :=
  match maxsplit with
  | O => [s]
  | S n =>
      match split_once c s with
      | None => [s]
      | Some (x, y) => x :: split c n y
      end
  end.

(** [s.split(c)] without a bound: at most [length s] cuts. *)
Definition split_all (c : ascii) (s : string) : list string :=
  split c (String.length s) s.

Definition is_upper (a : ascii) : bool :=
  let n := nat_of_ascii a in (Nat.leb 65 n && Nat.leb n 90)%bool.

Definition is_lower (a : ascii) : bool :=
  let n := nat_of_ascii a in (Nat.leb 97 n && Nat.leb n 122)%bool.

Definition lower_char (a : ascii) : ascii :=
  if is_upper a then ascii_of_nat (nat_of_ascii a + 32) else a.

Definition upper_char (a : ascii) : ascii :=
  if is_lower a then ascii_of_nat (nat_of_ascii a - 32) else a.

(** [s.lower()]. *)
Fixpoint lower (s : string) : string :=
  match s with
  | EmptyString => EmptyString
  | String a r => String (lower_char a) (lower r)
  end.

(** [c.isspace()] on the ASCII range: tab to carriage return, the four
    separators 28 to 31, and the space. *)
Definition isspace (a : ascii) : bool :=
  let n := nat_of_ascii a in
  ((Nat.leb 9 n && Nat.leb n 13) || (Nat.leb 28 n && Nat.leb n 32))%bool.

Fixpoint lstrip (s : string) : string :=
  match s with
  | EmptyString => EmptyString
  | String a r => if isspace a then lstrip r else s
  end.

Fixpoint rstrip (s : string) : string :=
  match s with
  | EmptyString => EmptyString
  | String a r =>
      match rstrip r with
      | EmptyString => if isspace a then EmptyString else String a EmptyString
      | r' => String a r'
      end
  end.

(** [s.strip()]. *)
Definition strip (s : string) : string := rstrip (lstrip s).

(** [s.title()]: a letter that follows a letter is lowered, any other
    letter is raised. *)
Fixpoint title_from (previous_is_cased : bool) (s : string) : string :=
  match s with
  | EmptyString => EmptyString
  | String a r =>
      String (if previous_is_cased then lower_char a else upper_char a)
             (title_from (is_upper a || is_lower a) r)
  end.

Definition title (s : string) : string := title_from false s.

(** [sep.join(l)]. *)
Fixpoint join (sep : string) (l : list string) : string :=
  match l with
  | [] => EmptyString
  | [x] => x
  | x :: r => x +:+ sep +:+ join sep r
  end.

End Str.

(** ** Python's Unicode-aware [str] methods (external)

    [s.lower()], [s.strip()], [s.title()] and [len(s)] work on the code
    points of [s] and follow the Unicode tables of the interpreter. The
    code that applies them to the text of a request takes them as a
    [PyStr.t], and nothing is assumed of them. *)

Module PyStr.

Record t := {
  lower : string -> string;
  strip : string -> string;
  title : string -> string;
  len : string -> nat
}.

(** The methods on ASCII text, where a code point is one character of the
    [string]. The examples below, whose texts are ASCII, run with them. *)
Definition ascii : t :=
  {| lower := Str.lower; strip := Str.strip; title := Str.title; len := String.length |}.

End PyStr.

(** ** Python values, exceptions and outcomes *)

(** The values that occur in token payloads: [None], integers, strings,
    lists of strings (the family list) and, before encoding, datetimes. *)
Inductive pyval :=
| PNone
| PInt (z : Z)
| PStr (s : string)
| PList (l : list string)
| PDatetime (us : Z).

Global Instance pyval_eq_dec : EqDecision pyval.
Proof. solve_decision. Defined.

(** Truth value of a payload entry, as [if v:] reads it. *)
Definition truthy (v : pyval) : bool :=
  match v with
  | PNone => false
  | PInt z => negb (z =? 0)
  | PStr s => negb (String.eqb s "")
  | PList l => match l with [] => false | _ => true end
  | PDatetime _ => true
  end.

(** The exceptions the code raises or lets through. The PyJWT errors other
    than [ExpiredSignatureError] are all subclasses of [InvalidTokenError]
    and are told apart by name only. The detail of an [HTTPException] is a
    message or the text [str(e)] of a caught exception, kept symbolic. *)
Inductive exn :=
| ExpiredSignatureError
| InvalidTokenError (name : string)
| KeyError (key : string)
| ValueError
| TypeError
| AttributeError
| IntegrityError
| HTTPException (status_code : Z) (detail : http_detail)
with http_detail :=
| Msg (s : string)
| StrOf (e : exn).

Inductive result (A : Type) :=
| Ok (a : A)
| Raise (e : exn).
Arguments Ok {A} a.
Arguments Raise {A} e.

Definition rbind {A B} (r : result A) (k : A -> result B) : result B :=
  match r with
  | Ok a => k a
  | Raise e => Raise e
  end.

Notation "'let?' x ':=' r 'in' k" := (rbind r (fun x => k))
  (at level 10, x name, r at level 100, k at level 200).

(** [d[key]]: a missing key raises [KeyError]. *)
Definition getitem (d : gmap string pyval) (key : string) : result pyval :=
  match d !! key with
  | Some v => Ok v
  | None => Raise (KeyError key)
  end.

(** [d.get(key)]: a missing key reads as [None]. *)
Definition get (d : gmap string pyval) (key : string) : pyval :=
  default PNone (d !! key).

(** The handlers use the [email] and [family_name] entries of a payload as
    [str]; every payload this service signs has them as [str]. What the
    database driver does with a bound parameter of another type depends on
    the driver, and the embedding raises [TypeError] there. *)
Definition as_str (v : pyval) : result string :=
  match v with
  | PStr s => Ok s
  | _ => Raise TypeError
  end.

(** ** Time *)

Definition datetime := Z.

Definition microseconds_per_second : Z := 1000000.

(** [timegm(dt.utctimetuple())]: whole seconds, the microseconds dropped. *)
Definition timegm (dt : datetime) : Z := dt / microseconds_per_second.

(** [datetime.fromtimestamp(ts, timezone.utc)] for an integer [ts]. *)
Definition fromtimestamp (ts : Z) : datetime := ts * microseconds_per_second.

Definition timedelta_minutes (m : Z) : Z := m * 60 * microseconds_per_second.
Definition timedelta_hours (h : Z) : Z := h * 3600 * microseconds_per_second.
Definition timedelta_days (d : Z) : Z := d * 86400 * microseconds_per_second.

(** ** The PyJWT library (external)

    [jwt.encode] and [jwt.decode] with the HS256 algorithm, modelled
    symbolically: a token is the claims it carries together with the key it
    was signed with, or a string that does not parse as a token. Only the
    holder of a key can make a token signed with it, and the model lets a
    statement range over every such token, whatever its claims. *)

Module jwt.

Inductive token :=
| JWS (claims : gmap string pyval) (key : string)
| Malformed (raw : string).

Definition time_claims : list string := ["exp"; "iat"; "nbf"].

(** A datetime under a time claim becomes its integer timestamp. *)
Definition convert_time_claim (payload : gmap string pyval) (c : string)
  : gmap string pyval :=
  match payload !! c with
  | Some (PDatetime dt) => <[c := PInt (timegm dt)]> payload
  | _ => payload
  end.

Definition json_serializable (v : pyval) : bool :=
  match v with
  | PDatetime _ => false
  | _ => true
  end.

(** [jwt.encode(payload, key, algorithm="HS256")]: the time claims are
    converted, then the payload is serialised to JSON, which raises
    [TypeError] on any datetime left. *)
Definition encode (payload : gmap string pyval) (key : string) : result token :=
  let payload' := foldl convert_time_claim payload time_claims in
  if bool_decide (map_Forall (fun _ v => json_serializable v = true) payload')
  then Ok (JWS payload' key)
  else Raise TypeError.

(** [int(payload[c])] inside the validators: a [ValueError] is turned
    into a decoding error of the library; [int(None)] and the like are a
    [TypeError], which the library lets through. Strings are taken not to
    spell a number. *)
Definition int_claim (name : string) (v : pyval) : result Z :=
  match v with
  | PInt z => Ok z
  | PStr _ => Raise (InvalidTokenError name)
  | _ => Raise TypeError
  end.

(** The checks of the registered claims that [jwt.decode] performs with
    its default options (no leeway, no audience, no issuer), in the
    library's order: [iat], [nbf], [exp], [aud]. Later versions of the
    library also refuse a [sub] or a [jti] that is not a string; the tokens
    of this service carry [sub] as a string and no [jti]. *)
Definition validate_iat (payload : gmap string pyval) (now : datetime) : result unit :=
  match payload !! "iat" with
  | None => Ok tt
  | Some v =>
      let? iat := int_claim "InvalidIssuedAtError" v in
      if fromtimestamp iat >? now
      then Raise (InvalidTokenError "ImmatureSignatureError")
      else Ok tt
  end.

Definition validate_nbf (payload : gmap string pyval) (now : datetime) : result unit :=
  match payload !! "nbf" with
  | None => Ok tt
  | Some v =>
      let? nbf := int_claim "DecodeError" v in
      if fromtimestamp nbf >? now
      then Raise (InvalidTokenError "ImmatureSignatureError")
      else Ok tt
  end.

Definition validate_exp (payload : gmap string pyval) (now : datetime) : result unit :=
  match payload !! "exp" with
  | None => Ok tt
  | Some v =>
      let? exp := int_claim "DecodeError" v in
      if fromtimestamp exp <=? now
      then Raise ExpiredSignatureError
      else Ok tt
  end.

(** No audience is passed to [jwt.decode], so a token that carries an
    [aud] claim is refused: the library's check is [if audience is None:
    if "aud" not in payload or not payload["aud"]: return] followed by
    [raise InvalidAudienceError]. *)
Definition validate_aud (payload : gmap string pyval) : result unit :=
  match payload !! "aud" with
  | None => Ok tt
  | Some v =>
      if truthy v
      then Raise (InvalidTokenError "InvalidAudienceError")
      else Ok tt
  end.

Definition validate_claims (payload : gmap string pyval) (now : datetime) : result unit :=
  let? _ := validate_iat payload now in
  let? _ := validate_nbf payload now in
  let? _ := validate_exp payload now in
  validate_aud payload.

(** [jwt.decode(token, key, algorithms=["HS256"])] at the instant [now]. *)
Definition decode (t : token) (key : string) (now : datetime)
  : result (gmap string pyval) :=
  match t with
  | Malformed _ => Raise (InvalidTokenError "DecodeError")
  | JWS claims k =>
      if bool_decide (k = key)
      then let? _ := validate_claims claims now in Ok claims
      else Raise (InvalidTokenError "InvalidSignatureError")
  end.

(** The token carries no integer [exp] at or before [now]. *)
Definition unexpired (t : token) (now : datetime) : bool :=
  match t with
  | JWS claims _ =>
      match claims !! "exp" with
      | Some (PInt exp) => now <? fromtimestamp exp
      | _ => true
      end
  | Malformed _ => true
  end.

End jwt.

(** ** auth/google.py: GoogleAuthService *)

Record GoogleAuthService := {
  client_id : string;
  client_secret : string;
  redirect_uri : string;
  jwt_secret : string
}.

(** The provider's side of the code exchange: the token endpoint or the
    verification of the ID token fails with an error text, or the verified
    ID token yields its claims. *)
Record idinfo := {
  id_sub : option string;
  id_email : option string;
  id_name : option string;
  id_picture : option string;
  id_email_verified : bool
}.

Inductive provider_reply :=
| ProviderError (error : string)
| ProviderIdInfo (info : idinfo).

Record user_info := {
  ui_google_id : option string;
  ui_email : option string;
  ui_name : option string;
  ui_picture : option string;
  ui_email_verified : bool
}.

Inductive exchange_result :=
| ExchangeFailure (error : string)
| ExchangeSuccess (info : user_info) (family_name : option string) (state : string).

Section GoogleAuth.

Variable self : GoogleAuthService.

(** The [state] parameter that [get_authorization_url] places in the
    authorization URL; [fresh] is [secrets.token_urlsafe(32)]. *)
Definition authorization_state (family_name : string) (state : option string)
    (fresh : string) : string :=
  let state := match state with
               | Some s => if String.eqb s "" then fresh else s
               | None => fresh
               end in
  family_name +:+ ":" +:+ state.

Definition get_authorization_url (family_name : string) (state : option string)
    (fresh : string) : string :=
  let family_state := authorization_state family_name state fresh in
  let params :=
    [("client_id", client_id self);
     ("redirect_uri", redirect_uri self);
     ("scope", "openid email profile");
     ("response_type", "code");
     ("access_type", "offline");
     ("prompt", "consent");
     ("state", family_state)] in
  let query_string := Str.join "&" (map (fun kv => fst kv +:+ "=" +:+ snd kv) params) in
  "https://accounts.google.com/o/oauth2/v2/auth?" +:+ query_string.

(** [exchange_code_for_tokens]: the state is cut at its first colon, then
    the provider is asked; every exception becomes a failure result. *)
Definition exchange_code_for_tokens (reply : provider_reply) (code state : string)
  : exchange_result :=
  let '(family_name, original_state) :=
    if Str.contains ":" state then
      match Str.split ":" 1 state with
      | [a; b] => (Some a, b)
      | _ => (None, state)
      end
    else (None, state) in
  match reply with
  | ProviderError error => ExchangeFailure error
  | ProviderIdInfo i =>
      ExchangeSuccess
        {| ui_google_id := id_sub i;
           ui_email := id_email i;
           ui_name := id_name i;
           ui_picture := id_picture i;
           ui_email_verified := id_email_verified i |}
        family_name original_state
  end.

(** [str(user_id)]. *)
Definition str_of_int (z : Z) : string := pretty z.

Definition create_jwt_token (user_id : Z) (email : string)
    (families : option (list string)) (expires_hours : Z) (now : datetime)
  : result jwt.token :=
  let expire := now + timedelta_hours expires_hours in
  let families := match families with
                  | Some (f :: l) => f :: l
                  | _ => []
                  end in
  let payload : gmap string pyval :=
    <["user_id" := PInt user_id]>
    (<["email" := PStr email]>
    (<["families" := PList families]>
    (<["iat" := PDatetime now]>
    (<["exp" := PDatetime expire]>
    (<["iss" := PStr "family-genealogy-platform"]>
    (<["sub" := PStr (str_of_int user_id)]> ∅)))))) in
  jwt.encode payload (jwt_secret self).

(** [verify_jwt_token]: decode, then the explicit comparison of [exp]
    with the clock; the two PyJWT exception classes give [None], anything
    else propagates. *)
Definition verify_jwt_token (token : jwt.token) (now : datetime)
  : result (option (gmap string pyval)) :=
  match jwt.decode token (jwt_secret self) now with
  | Ok payload =>
      let exp := get payload "exp" in
      if truthy exp then
        match exp with
        | PInt e => if fromtimestamp e <? now then Ok None else Ok (Some payload)
        | _ => Raise TypeError
        end
      else Ok (Some payload)
  | Raise ExpiredSignatureError => Ok None
  | Raise (InvalidTokenError _) => Ok None
  | Raise e => Raise e
  end.

Definition create_verification_token (email family_name : string)
    (user_id : option Z) (now : datetime) : result jwt.token :=
  let expire := now + timedelta_minutes 30 in
  let payload : gmap string pyval :=
    <["email" := PStr email]>
    (<["family_name" := PStr family_name]>
    (<["user_id" := match user_id with Some u => PInt u | None => PNone end]>
    (<["type" := PStr "email_verification"]>
    (<["iat" := PDatetime now]>
    (<["exp" := PDatetime expire]>
    (<["iss" := PStr "family-genealogy-platform"]> ∅)))))) in
  jwt.encode payload (jwt_secret self).

(** [verify_verification_token]: decode, then the check of the [type]
    entry; there is no comparison of [exp] of its own here. *)
Definition verify_verification_token (token : jwt.token) (now : datetime)
  : result (option (gmap string pyval)) :=
  match jwt.decode token (jwt_secret self) now with
  | Ok payload =>
      if bool_decide (get payload "type" = PStr "email_verification")
      then Ok (Some payload)
      else Ok None
  | Raise ExpiredSignatureError => Ok None
  | Raise (InvalidTokenError _) => Ok None
  | Raise e => Raise e
  end.

End GoogleAuth.

(** ** db/models.py: tables and the database manager *)

Record User := {
  u_id : Z;
  u_email : string;
  u_google_id : string;
  u_name : string;
  u_picture_url : option string;
  u_verified_at : option datetime;
  u_created_at : datetime;
  u_last_login : option datetime;
  u_is_active : bool
}.

Record FamilyAccess := {
  fa_id : Z;
  fa_user_id : Z;
  fa_family_name : string;
  fa_granted_at : datetime;
  fa_granted_by : string;
  fa_is_active : bool
}.

Record UserConsent := {
  uc_id : Z;
  uc_user_id : Z;
  uc_family_name : string;
  uc_marketing_consent : bool;
  uc_terms_accepted : bool;
  uc_consent_version : string;
  uc_consented_at : datetime;
  uc_updated_at : datetime;
  uc_ip_address : option string;
  uc_user_agent : option string
}.

Record FamilyInvitationCode := {
  ic_id : Z;
  ic_code : string;
  ic_family_name : string;
  ic_created_by_user_id : Z;
  ic_created_at : datetime;
  ic_expires_at : option datetime;   (* None = never expires *)
  ic_max_uses : option Z;            (* None = unlimited uses *)
  ic_current_uses : Z;
  ic_is_active : bool;
  ic_description : option string
}.

Global Instance User_eq_dec : EqDecision User.
Proof. solve_decision. Defined.
Global Instance FamilyAccess_eq_dec : EqDecision FamilyAccess.
Proof. solve_decision. Defined.
Global Instance UserConsent_eq_dec : EqDecision UserConsent.
Proof. solve_decision. Defined.
Global Instance FamilyInvitationCode_eq_dec : EqDecision FamilyInvitationCode.
Proof. solve_decision. Defined.

(** The store behind the engine: one list of rows per table. *)
Record database := {
  users : list User;
  family_access : list FamilyAccess;
  user_consent : list UserConsent;
  family_invitation_codes : list FamilyInvitationCode
}.

Definition empty_database : database :=
  {| users := []; family_access := []; user_consent := [];
     family_invitation_codes := [] |}.

(** A computation on the store: its outcome and the store it leaves. *)
Definition M (A : Type) : Type := database -> result A * database.

Definition ret {A} (a : A) : M A := fun db => (Ok a, db).
Definition raise {A} (e : exn) : M A := fun db => (Raise e, db).
Definition lift {A} (r : result A) : M A := fun db => (r, db).

Definition bind {A B} (m : M A) (k : A -> M B) : M B :=
  fun db =>
    match m db with
    | (Ok a, db') => k a db'
    | (Raise e, db') => (Raise e, db')
    end.

(** [try: m except Exception as e: h e]. *)
Definition try_except {A} (m : M A) (h : exn -> M A) : M A :=
  fun db =>
    match m db with
    | (Ok a, db') => (Ok a, db')
    | (Raise e, db') => h e db'
    end.

Notation "'let*' x ':=' m 'in' k" := (bind m (fun x => k))
  (at level 10, x name, m at level 100, k at level 200).

(** The key a table gives to a new row: one more than the largest in use. *)
Definition next_id (ids : list Z) : Z := foldr Z.max 0 ids + 1.

Definition user_exists (db : database) (user_id : Z) : bool :=
  existsb (fun u => u_id u =? user_id) (users db).

(** [get_valid_families]: the [FAMILY_NAMES] variable of the environment,
    cut at the commas, each name stripped. *)
Definition get_valid_families (FAMILY_NAMES : option string) : list string :=
  let family_names := default "bull,north,klingenberg,herrman" FAMILY_NAMES in
  map Str.strip (Str.split_all "," family_names).

Definition is_valid_family (FAMILY_NAMES : option string) (family_name : string) : bool :=
  bool_decide (family_name ∈ get_valid_families FAMILY_NAMES).

Module DatabaseManager.

Definition get_user_by_email (db : database) (email : string) : option User :=
  find (fun u => bool_decide (u_email u = email)) (users db).

Definition get_user_by_google_id (db : database) (google_id : string) : option User :=
  find (fun u => bool_decide (u_google_id u = google_id)) (users db).

(** [create_user]: the columns [google_id] and [name] are not nullable,
    [email] and [google_id] are unique. *)
Definition create_user (email : string) (google_id name picture_url : option string)
    (now : datetime) : M User :=
  fun db =>
    match google_id, name with
    | Some google_id, Some name =>
        if existsb (fun u => bool_decide (u_email u = email)
                             || bool_decide (u_google_id u = google_id)) (users db)
        then (Raise IntegrityError, db)
        else
          let user := {| u_id := next_id (map u_id (users db));
                         u_email := email;
                         u_google_id := google_id;
                         u_name := name;
                         u_picture_url := picture_url;
                         u_verified_at := None;
                         u_created_at := now;
                         u_last_login := None;
                         u_is_active := true |} in
          (Ok user,
           {| users := users db ++ [user];
              family_access := family_access db;
              user_consent := user_consent db;
              family_invitation_codes := family_invitation_codes db |})
    | _, _ => (Raise IntegrityError, db)
    end.

(** [grant_family_access]: a new row, with no look at the rows already
    there; [user_id] is a foreign key into [users]. *)
Definition grant_family_access (user_id : Z) (family_name granted_by : string)
    (now : datetime) : M FamilyAccess :=
  fun db =>
    if user_exists db user_id then
      let access := {| fa_id := next_id (map fa_id (family_access db));
                       fa_user_id := user_id;
                       fa_family_name := family_name;
                       fa_granted_at := now;
                       fa_granted_by := granted_by;
                       fa_is_active := true |} in
      (Ok access,
       {| users := users db;
          family_access := family_access db ++ [access];
          user_consent := user_consent db;
          family_invitation_codes := family_invitation_codes db |})
    else (Raise IntegrityError, db).

Definition get_user_families (db : database) (user_id : Z) : list string :=
  let access_records :=
    filter (fun r => fa_user_id r = user_id ∧ fa_is_active r = true)
           (family_access db) in
  map fa_family_name access_records.


(** [create_invitation_code]; [random_part] is the eight characters drawn
    from [secrets.choice]. The column [code] is unique. *)
Definition create_invitation_code (py : PyStr.t) (user_id : Z) (family_name : string)
    (description : option string) (max_uses expires_days : option Z)
    (random_part : string) (now : datetime) : M string :=
  fun db =>
    let full_code := PyStr.lower py family_name +:+ random_part in
    let expires_at :=
      match expires_days with
      | Some d => if d =? 0 then None else Some (now + timedelta_days d)
      | None => None
      end in
    let invitation := {| ic_id := next_id (map ic_id (family_invitation_codes db));
                         ic_code := full_code;
                         ic_family_name := family_name;
                         ic_created_by_user_id := user_id;
                         ic_created_at := now;
                         ic_expires_at := expires_at;
                         ic_max_uses := max_uses;
                         ic_current_uses := 0;
                         ic_is_active := true;
                         ic_description := description |} in
    if negb (user_exists db user_id)
       || existsb (fun r => bool_decide (ic_code r = full_code))
                  (family_invitation_codes db)
    then (Raise IntegrityError, db)
    else
      (Ok full_code,
       {| users := users db;
          family_access := family_access db;
          user_consent := user_consent db;
          family_invitation_codes := family_invitation_codes db ++ [invitation] |}).

Definition get_invitation_code (db : database) (code : string)
  : option FamilyInvitationCode :=
  find (fun r => bool_decide (ic_code r = code) && ic_is_active r)
       (family_invitation_codes db).

(** [invitation.current_uses += 1] followed by the commit: the row with
    the invitation's key gets the incremented counter. *)
Definition set_current_uses (n : Z) (r : FamilyInvitationCode) : FamilyInvitationCode :=
  {| ic_id := ic_id r;
     ic_code := ic_code r;
     ic_family_name := ic_family_name r;
     ic_created_by_user_id := ic_created_by_user_id r;
     ic_created_at := ic_created_at r;
     ic_expires_at := ic_expires_at r;
     ic_max_uses := ic_max_uses r;
     ic_current_uses := n;
     ic_is_active := ic_is_active r;
     ic_description := ic_description r |}.

Definition commit_current_uses (invitation : FamilyInvitationCode) (n : Z) : M unit :=
  fun db =>
    (Ok tt,
     {| users := users db;
        family_access := family_access db;
        user_consent := user_consent db;
        family_invitation_codes :=
          map (fun r => if ic_id r =? ic_id invitation
                        then set_current_uses n r else r)
              (family_invitation_codes db) |}).

(** [invitation.expires_at and invitation.expires_at < now]: a datetime
    is always true as a condition. *)
Definition is_expired (invitation : FamilyInvitationCode) (now : datetime) : bool :=
  match ic_expires_at invitation with
  | Some expires_at => expires_at <? now
  | None => false
  end.

(** [invitation.max_uses and invitation.current_uses >= invitation.max_uses]:
    as a condition [max_uses] is false when it is [None] and when it is 0. *)
Definition max_uses_exceeded (invitation : FamilyInvitationCode) : bool :=
  match ic_max_uses invitation with
  | Some max_uses =>
      negb (max_uses =? 0) && (max_uses <=? ic_current_uses invitation)
  | None => false
  end.

(** [use_invitation_code]; its query is the one of [get_invitation_code]. *)
Definition use_invitation_code (code : string) (user_id : Z) (now : datetime)
  : M bool :=
  fun db =>
    match get_invitation_code db code with
    | None => (Ok false, db)
    | Some invitation =>
        if is_expired invitation now then (Ok false, db)
        else if max_uses_exceeded invitation then (Ok false, db)
        else
          (let* _ := grant_family_access user_id (ic_family_name invitation)
                       ("invitation_" +:+ code) now in
           let* _ := commit_current_uses invitation
                       (ic_current_uses invitation + 1) in
           ret true) db
    end.

(** [get_user_invitation_codes]: the active codes a user has created. *)
Definition get_user_invitation_codes (db : database) (user_id : Z)
  : list FamilyInvitationCode :=
  filter (fun r => ic_created_by_user_id r = user_id /\ ic_is_active r = true)
         (family_invitation_codes db).

End DatabaseManager.

Import DatabaseManager.

(** ** main.py: the flow controller *)

(** What a handler answers. The [authorization] cookie of a redirect holds
    ["Bearer " + token]; a magic link is the backend's base address followed
    by the token; the token itself stands for both. *)
Inductive response :=
| RedirectResponse (url : string) (authorization : option jwt.token)
| SignupStarted (auth_url email state : string)
| FamilyCreated (family_name invitation_code : string) (email_sent : bool)
| FamilyJoined (family_name invitation_code : string) (magic_token : jwt.token)
| ConsentRecorded (family : string) (marketing_consent terms_accepted : bool).

Definition family_page (family_name : string) : string :=
  "https://family.futurelink.zip/families/" +:+ family_name.

Definition select_family_page : string :=
  "https://family.futurelink.zip/select-family".

Definition error_page : string :=
  "https://family.futurelink.zip/error?message=Invalid+or+expired+link".

(** [user.verified_at = now; user.last_login = now; session.add(user)] and
    the commit of that session. *)
Definition stamp_login (now : datetime) (u : User) : User :=
  {| u_id := u_id u;
     u_email := u_email u;
     u_google_id := u_google_id u;
     u_name := u_name u;
     u_picture_url := u_picture_url u;
     u_verified_at := Some now;
     u_created_at := u_created_at u;
     u_last_login := Some now;
     u_is_active := u_is_active u |}.

Definition commit_login (user : User) (now : datetime) : M unit :=
  fun db =>
    (Ok tt,
     {| users := map (fun u => if u_id u =? u_id user then stamp_login now u else u)
                     (users db);
        family_access := family_access db;
        user_consent := user_consent db;
        family_invitation_codes := family_invitation_codes db |}).

(** What [GET /me] answers. *)
Record me_response := {
  me_id : Z;
  me_email : string;
  me_name : string;
  me_picture_url : option string;
  me_families : list string;
  me_verified_at : option datetime;
  me_created_at : datetime;
  me_last_login : option datetime
}.

Section Handlers.

Variable google_auth : GoogleAuthService.

(** Python's [str] methods, for the family name of a create-family request. *)
Variable py : PyStr.t.

(** [get_current_user]: no cookie or a rejected token give no user; so
    does an empty payload, which is false as a condition. *)
Definition get_current_user (authorization : option jwt.token) (now : datetime)
  : result (option (gmap string pyval)) :=
  match authorization with
  | None => Ok None
  | Some token =>
      let? payload := verify_jwt_token google_auth token now in
      match payload with
      | None => Ok None
      | Some payload =>
          if bool_decide (payload = ∅) then Ok None else Ok (Some payload)
      end
  end.

(** [POST /signup/start]; [nonce] is [secrets.token_urlsafe(32)]. The state
    handed to [get_authorization_url] is not empty, so no second random
    text is drawn there. *)
Definition start_signup (email nonce : string) : response :=
  let auth_state := "signup:" +:+ email +:+ ":" +:+ nonce in
  let auth_url := get_authorization_url google_auth "signup" (Some auth_state) nonce in
  SignupStarted auth_url email auth_state.

(** [POST /signup/create-family]; [random_part] is the random suffix of
    the code and [email_success] the outcome the mail collaborator reports. *)
Definition create_family_code (authorization : option jwt.token)
    (request_family_name : string) (request_description : option string)
    (random_part : string) (email_success : bool) (now : datetime) : M response :=
  let* user := lift (get_current_user authorization now) in
  match user with
  | None => raise (HTTPException 401 (Msg "Not authenticated"))
  | Some user =>
      let family_name := PyStr.strip py (PyStr.lower py request_family_name) in
      if (String.eqb family_name "" || (PyStr.len py family_name <? 2)%nat)%bool
      then raise (HTTPException 400 (Msg "Family name must be at least 2 characters"))
      else
        let* email := lift (let? v := getitem user "email" in as_str v) in
        fun db =>
          match get_user_by_email db email with
          | None => (Raise (HTTPException 404 (Msg "User not found")), db)
          | Some db_user =>
              let description :=
                match request_description with
                | Some d =>
                    if String.eqb d "" then PyStr.title py family_name +:+ " Family" else d
                | None => PyStr.title py family_name +:+ " Family"
                end in
              (let* invitation_code :=
                 create_invitation_code py (u_id db_user) family_name (Some description)
                   None None random_part now in
               let* _ := grant_family_access (u_id db_user) family_name
                           "family_creator" now in
               let* magic_token :=
                 lift (create_verification_token google_auth email family_name
                         (Some (u_id db_user)) now) in
               ret (FamilyCreated family_name invitation_code email_success)) db
          end
  end.

(** [POST /signup/join-family]. *)
Definition join_family_with_code (authorization : option jwt.token)
    (invitation_code : string) (now : datetime) : M response :=
  let* user := lift (get_current_user authorization now) in
  match user with
  | None => raise (HTTPException 401 (Msg "Not authenticated"))
  | Some user =>
      let* email := lift (let? v := getitem user "email" in as_str v) in
      fun db =>
        match get_user_by_email db email with
        | None => (Raise (HTTPException 404 (Msg "User not found")), db)
        | Some db_user =>
            (let* success := use_invitation_code invitation_code (u_id db_user) now in
             if negb success
             then raise (HTTPException 400 (Msg "Invalid or expired invitation code"))
             else
               fun db' =>
                 match get_invitation_code db' invitation_code with
                 | None => (Raise AttributeError, db')
                 | Some invitation =>
                     (let* magic_token :=
                        lift (create_verification_token google_auth email
                                (ic_family_name invitation) (Some (u_id db_user)) now) in
                      ret (FamilyJoined (ic_family_name invitation) invitation_code
                             magic_token)) db'
                 end) db
        end
  end.

(** [GET /oauth/callback]; [reply] is what the identity provider answers
    to the code exchange. The whole body is inside a [try] whose handler
    re-raises every exception as a 500. *)
Definition oauth_callback (reply : provider_reply) (code state : string)
    (now : datetime) : M response :=
  try_except
    (match exchange_code_for_tokens reply code state with
     | ExchangeFailure error =>
         raise (HTTPException 400 (Msg ("OAuth exchange failed: " +:+ error)))
     | ExchangeSuccess user_info signup_info _ =>
         if negb (ui_email_verified user_info)
         then raise (HTTPException 400 (Msg "Google email not verified"))
         else
           match signup_info with
           | None => raise AttributeError
           | Some signup_info =>
               if negb (Str.startswith "signup:" signup_info)
               then raise (HTTPException 400 (Msg "Invalid signup state"))
               else
                 match Str.split ":" 2 signup_info with
                 | [_; original_email; _] =>
                     if negb (bool_decide (ui_email user_info = Some original_email))
                     then raise (HTTPException 400 (Msg "Email mismatch"))
                     else
                       let* user :=
                         fun db =>
                           match get_user_by_email db original_email with
                           | Some user => (Ok user, db)
                           | None =>
                               create_user original_email (ui_google_id user_info)
                                 (ui_name user_info) (ui_picture user_info) now db
                           end in
                       let* _ := commit_login user now in
                       fun db =>
                         let user_families := get_user_families db (u_id user) in
                         (let* jwt_token :=
                            lift (create_jwt_token google_auth (u_id user) (u_email user)
                                    (Some user_families) 24 now) in
                          let redirect_url :=
                            match user_families with
                            | primary_family :: _ => family_page primary_family
                            | [] => select_family_page
                            end in
                          ret (RedirectResponse redirect_url (Some jwt_token))) db
                 | _ => raise ValueError
                 end
           end
     end)
    (fun e => raise (HTTPException 500 (StrOf e))).

(** [GET /magic/{token}]. The whole body is inside a [try] whose handler
    answers with a redirect to the error page. *)
Definition magic_login (token : jwt.token) (now : datetime) : M response :=
  try_except
    (let* payload := lift (verify_verification_token google_auth token now) in
     match payload with
     | None => raise (HTTPException 400 (Msg "Invalid or expired magic link"))
     | Some payload =>
         let* email := lift (let? v := getitem payload "email" in as_str v) in
         let* family_name := lift (let? v := getitem payload "family_name" in as_str v) in
         fun db =>
           match get_user_by_email db email with
           | None => (Raise (HTTPException 404 (Msg "User not found")), db)
           | Some user =>
               let user_families := get_user_families db (u_id user) in
               (let* user_families :=
                  if bool_decide (family_name ∈ user_families)
                  then ret user_families
                  else
                    let* _ := grant_family_access (u_id user) family_name
                                "magic_link" now in
                    ret (user_families ++ [family_name])%list in
                let* jwt_token :=
                  lift (create_jwt_token google_auth (u_id user) email
                          (Some user_families) 24 now) in
                let* _ := commit_login user now in
                ret (RedirectResponse (family_page family_name) (Some jwt_token))) db
           end
     end)
    (fun _ => ret (RedirectResponse error_page None)).


(** [GET /verify/{token}]. The whole body is inside a [try] whose handler
    re-raises every exception as a 500. *)
Definition verify_email (token : jwt.token) (now : datetime) : M response :=
  try_except
    (let* payload := lift (verify_verification_token google_auth token now) in
     match payload with
     | None => raise (HTTPException 400 (Msg "Invalid or expired verification token"))
     | Some payload =>
         let* email := lift (let? v := getitem payload "email" in as_str v) in
         let* family_name := lift (let? v := getitem payload "family_name" in as_str v) in
         fun db =>
           match get_user_by_email db email with
           | None => (Raise (HTTPException 404 (Msg "User not found")), db)
           | Some user =>
               (let* _ := grant_family_access (u_id user) family_name
                            "email_verification" now in
                fun db' =>
                  let user_families := get_user_families db' (u_id user) in
                  (let* jwt_token :=
                     lift (create_jwt_token google_auth (u_id user) email
                             (Some user_families) 24 now) in
                   let* _ := commit_login user now in
                   ret (RedirectResponse ("https://family.futurelink.zip/" +:+ family_name)
                          (Some jwt_token))) db') db
           end
     end)
    (fun e => raise (HTTPException 500 (StrOf e))).

(** [GET /me]: the user's row and families as the store has them now. *)
Definition get_current_user_info (authorization : option jwt.token) (now : datetime)
  : M me_response :=
  let* user := lift (get_current_user authorization now) in
  match user with
  | None => raise (HTTPException 401 (Msg "Not authenticated"))
  | Some user =>
      let* email := lift (let? v := getitem user "email" in as_str v) in
      fun db =>
        match get_user_by_email db email with
        | None => (Raise (HTTPException 404 (Msg "User not found")), db)
        | Some db_user =>
            (Ok {| me_id := u_id db_user;
                   me_email := u_email db_user;
                   me_name := u_name db_user;
                   me_picture_url := u_picture_url db_user;
                   me_families := get_user_families db (u_id db_user);
                   me_verified_at := u_verified_at db_user;
                   me_created_at := u_created_at db_user;
                   me_last_login := u_last_login db_user |}, db)
        end
  end.

End Handlers.

(** ** email_service/ses_service.py: the validation of addresses *)

Module ses.

(** [_is_valid_email]: an at sign, a dot in the second of the parts that
    the at signs separate, and exactly two such parts. *)
Definition is_valid_email (email : string) : bool :=
  Str.contains "@" email
  && match Str.split_all "@" email with
     | _ :: domain :: _ => Str.contains "." domain
     | _ => false
     end
  && (length (Str.split_all "@" email) =? 2)%nat.

End ses.

(** ** Concrete configurations used in the examples below *)

Definition example_auth : GoogleAuthService :=
  {| client_id := "client-id";
     client_secret := "client-secret";
     redirect_uri := "https://auth.futurelink.zip/oauth2callback";
     jwt_secret := "secret" |}.

(** A correctly signed token whose expiry was set back to the first second
    of the epoch. *)
Definition backdated_token : jwt.token :=
  jwt.JWS (<["exp" := PInt 1]> (<["type" := PStr "email_verification"]> ∅)) "secret".

(** The store after a sequence of operations that all succeed. *)
Definition after {A} (m : M A) (db : database) : database := snd (m db).

(** One registered user, Ann, with key 1. *)
Definition db_ann : database :=
  after (create_user "a@x.com" (Some "google-ann") (Some "Ann") None 1000000)
        empty_database.

(** Ann granted the family "bull" twice. *)
Definition db_ann_two_grants : database :=
  after (grant_family_access 1 "bull" "email_verification" 3000000)
        (after (grant_family_access 1 "bull" "magic_link" 2000000) db_ann).

(** Ann and Bob, and an invitation code of Ann's for the family "bull"
    created with [max_uses = 0]. *)
Definition db_zero_code : database :=
  after (create_invitation_code PyStr.ascii 1 "bull" None (Some 0) None "ABCD1234" 3000000)
        (after (create_user "b@x.com" (Some "google-bob") (Some "Bob") None 2000000)
               db_ann).

(** The cookie of a session opened at [now]. *)
Definition session_cookie (user_id : Z) (email : string) (families : list string)
    (now : datetime) : option jwt.token :=
  match create_jwt_token example_auth user_id email (Some families) 24 now with
  | Ok token => Some token
  | Raise _ => None
  end.

(** A sequence of redemptions of one code, each by a user at an instant. *)
Fixpoint redeem_all (code : string) (attempts : list (Z * datetime)) (db : database)
  : list (result bool) * database :=
  match attempts with
  | [] => ([], db)
  | (user_id, now) :: rest =>
      let '(r, db') := use_invitation_code code user_id now db in
      let '(rs, db'') := redeem_all code rest db' in
      (r :: rs, db'')
  end.

(** The verification token issued at [now], as the magic link carries it. *)
Definition magic_token (email family_name : string) (user_id : option Z)
    (now : datetime) : jwt.token :=
  match create_verification_token example_auth email family_name user_id now with
  | Ok token => token
  | Raise _ => jwt.Malformed ""
  end.

(** A login that ends in a session: a redirect that sets the cookie. *)
Definition login_succeeded (r : result response) : Prop :=
  exists url token, r = Ok (RedirectResponse url (Some token)).

(** Ann and the user of the address user@x.com, with key 2. *)
Definition db_ann_user : database :=
  after (create_user "user@x.com" (Some "google-user") (Some "User") None 1500000)
        db_ann.

(** Ann's row as [create_user] made it. *)
Definition ann : User :=
  {| u_id := 1; u_email := "a@x.com"; u_google_id := "google-ann"; u_name := "Ann";
     u_picture_url := None; u_verified_at := None; u_created_at := 1000000;
     u_last_login := None; u_is_active := true |}.

(** Ann and Bob, and a code of Ann's for "bull" that admits two uses and
    expires after a day. *)
Definition db_two_uses : database :=
  after (create_invitation_code PyStr.ascii 1 "bull" None (Some 2) (Some 1) "WXYZ5678"
           3000000)
        (after (create_user "b@x.com" (Some "google-bob") (Some "Bob") None 2000000)
               db_ann).

(** The row of the user of user@x.com in [db_ann_user]. *)
Definition user2 : User :=
  {| u_id := 2; u_email := "user@x.com"; u_google_id := "google-user"; u_name := "User";
     u_picture_url := None; u_verified_at := None; u_created_at := 1500000;
     u_last_login := None; u_is_active := true |}.

(** Bob's row as [create_user] made it in [db_zero_code] and [db_two_uses]. *)
Definition bob : User :=
  {| u_id := 2; u_email := "b@x.com"; u_google_id := "google-bob"; u_name := "Bob";
     u_picture_url := None; u_verified_at := None; u_created_at := 2000000;
     u_last_login := None; u_is_active := true |}.

(** * Properties *)

(** ** Strings *)

Lemma startswith_contains (c : ascii) (p s : string) :
  Str.startswith p s = true -> Str.contains c p = true -> Str.contains c s = true.
Proof.
  revert s; induction p as [|a p IH]; intros [|b s]; simpl; try discriminate.
  destruct (Ascii.eqb_spec a b) as [->|]; [|discriminate].
  intros Hp. destruct (Ascii.eqb b c); [reflexivity|]. auto.
Qed.

Lemma split_once_head (c : ascii) (s x y : string) :
  Str.split_once c s = Some (x, y) -> Str.contains c x = false.
Proof.
  revert x y; induction s as [|a s IH]; simpl; intros x y; [discriminate|].
  destruct (Ascii.eqb a c) eqn:Hac.
  - intros [= <- <-]. reflexivity.
  - destruct (Str.split_once c s) as [[x' y']|]; [|discriminate].
    intros [= <- <-]. simpl. rewrite Hac. eauto.
Qed.

(** The part of a state before its first colon never starts with
    ["signup:"]. *)
Lemma state_head_not_signup (state a b : string) :
  Str.split ":" 1 state = [a; b] -> Str.startswith "signup:" a = false.
Proof.
  intros Hsplit. cbn [Str.split] in Hsplit.
  destruct (Str.split_once ":" state) as [[x y]|] eqn:Hs; [|discriminate].
  injection Hsplit as <- <-. apply split_once_head in Hs.
  destruct (Str.startswith "signup:" x) eqn:Hp; [|reflexivity].
  apply (startswith_contains ":") in Hp; [congruence | reflexivity].
Qed.

(** ** The OAuth callback *)

(** X28. Whatever the provider answers and whatever the state is, the
    callback ends in the 500 of its exception handler and leaves the store as it
    was: the text it tests for the ["signup:"] prefix is the part of the
    state before the first colon. *)
Lemma oauth_callback_never_accepts (ga : GoogleAuthService) (reply : provider_reply)
    (code state : string) (now : datetime) (db : database) :
  exists e, oauth_callback ga reply code state now db
            = (Raise (HTTPException 500 (StrOf e)), db).
Proof.
  unfold oauth_callback, try_except, exchange_code_for_tokens.
  destruct (Str.contains ":" state).
  - destruct (Str.split ":" 1 state) as [|a [|b [|? ?]]] eqn:Hs;
      destruct reply as [err|i]; cbn -[Str.startswith]; eauto;
      destruct (id_email_verified i); cbn -[Str.startswith]; eauto.
    rewrite (state_head_not_signup _ _ _ Hs). cbn. eauto.
  - destruct reply as [err|i]; cbn; eauto.
    destruct (id_email_verified i); cbn; eauto.
Qed.

(** C1. A signup started with email [E] and followed by a callback with a
    verified identity whose email is [E] is not accepted: both for the state
    string ["signup:E:nonce"] and for the state that [start_signup] puts in
    the authorization URL, the callback raises the 500 that wraps
    "Invalid signup state", and no user row is created. *)
Theorem oauth_callback_rejects_matching_signup (ga : GoogleAuthService)
    (E nonce code : string) (sub name picture : option string)
    (now : datetime) (db : database) :
  let identity := ProviderIdInfo {| id_sub := sub; id_email := Some E; id_name := name;
                                    id_picture := picture; id_email_verified := true |} in
  let rejected := (Raise (HTTPException 500
                            (StrOf (HTTPException 400 (Msg "Invalid signup state")))), db) in
  oauth_callback ga identity code ("signup:" +:+ E +:+ ":" +:+ nonce) now db = rejected
  /\ oauth_callback ga identity code
       (authorization_state "signup" (Some ("signup:" +:+ E +:+ ":" +:+ nonce)) nonce)
       now db = rejected.
Proof.
  split; reflexivity.
Qed.

(** ** Token expiry *)

Lemma validate_claims_expired (claims : gmap string pyval) (e : Z) (now : datetime) :
  claims !! "exp" = Some (PInt e) -> fromtimestamp e < now ->
  jwt.validate_claims claims now <> Ok tt.
Proof.
  intros Hexp Hlt. unfold jwt.validate_claims, jwt.validate_exp. rewrite Hexp. simpl.
  destruct (jwt.validate_iat claims now) as [[]|]; simpl; [|discriminate].
  destruct (jwt.validate_nbf claims now) as [[]|]; simpl; [|discriminate].
  destruct (Z.leb_spec (fromtimestamp e) now); [discriminate | lia].
Qed.

Lemma decode_expired (t : jwt.token) (claims : gmap string pyval) (key secret : string)
    (e : Z) (now : datetime) :
  t = jwt.JWS claims key ->
  claims !! "exp" = Some (PInt e) -> fromtimestamp e < now ->
  forall p, jwt.decode t secret now <> Ok p.
Proof.
  intros -> Hexp Hlt p. simpl. case_bool_decide; [|discriminate].
  pose proof (validate_claims_expired claims e now Hexp Hlt) as Hv.
  destruct (jwt.validate_claims claims now) as [[]|]; simpl; [congruence | discriminate].
Qed.

(** C2. A token whose [exp] claim lies in the past is accepted neither by
    [verify_jwt_token] nor by [verify_verification_token], whatever key it
    was signed with and whatever else it carries: no payload is returned. *)
Theorem expired_token_never_accepted (ga : GoogleAuthService)
    (claims : gmap string pyval) (key : string) (e : Z) (now : datetime) :
  claims !! "exp" = Some (PInt e) ->
  fromtimestamp e < now ->
  (forall p, verify_jwt_token ga (jwt.JWS claims key) now <> Ok (Some p))
  /\ (forall p, verify_verification_token ga (jwt.JWS claims key) now <> Ok (Some p)).
Proof.
  intros Hexp Hlt.
  pose proof (decode_expired _ claims key (jwt_secret ga) e now eq_refl Hexp Hlt) as Hd.
  split; intros p; unfold verify_jwt_token, verify_verification_token;
    destruct (jwt.decode (jwt.JWS claims key) (jwt_secret ga) now) as [q|[]] eqn:Hq;
    try discriminate; exfalso; exact (Hd q eq_refl).
Qed.

Lemma expired_token_never_accepted_witness :
  (forall p, verify_jwt_token example_auth backdated_token 2000000 <> Ok (Some p))
  /\ (forall p, verify_verification_token example_auth backdated_token 2000000 <> Ok (Some p)).
Proof.
  apply (expired_token_never_accepted example_auth _ "secret" 1 2000000);
    [reflexivity | reflexivity].
Defined.

(** ** Issued tokens *)

Lemma fromtimestamp_timegm_le (t : datetime) : fromtimestamp (timegm t) <= t.
Proof.
  unfold fromtimestamp, timegm, microseconds_per_second.
  pose proof (Z.mul_div_le t 1000000). lia.
Qed.

(** The payload that [jwt.encode] signs has no datetime left in it. *)
Ltac encode_serializable :=
  let k := fresh "k" in let v := fresh "v" in let Hkv := fresh "Hkv" in
  intros k v Hkv;
  repeat (apply lookup_insert_Some in Hkv;
          destruct Hkv as [[<- <-]|[? Hkv]]; [reflexivity || congruence|]);
  rewrite lookup_empty in Hkv; discriminate.

Ltac encode_time_claims :=
  cbn [foldl]; unfold jwt.convert_time_claim;
  rewrite !lookup_insert_ne, lookup_insert_eq by done;
  rewrite !lookup_insert_ne, lookup_insert_eq by done;
  rewrite !lookup_insert_ne, lookup_empty by done.

Lemma create_jwt_token_claims (ga : GoogleAuthService) (user_id : Z) (email : string)
    (families : list string) (expires_hours : Z) (now : datetime) :
  exists claims,
    create_jwt_token ga user_id email (Some families) expires_hours now
      = Ok (jwt.JWS claims (jwt_secret ga))
    /\ claims !! "user_id" = Some (PInt user_id)
    /\ claims !! "email" = Some (PStr email)
    /\ claims !! "families" = Some (PList families)
    /\ claims !! "iat" = Some (PInt (timegm now))
    /\ claims !! "exp" = Some (PInt (timegm (now + timedelta_hours expires_hours)))
    /\ claims !! "nbf" = None
    /\ claims !! "type" = None
    /\ claims !! "aud" = None.
Proof.
  unfold create_jwt_token, jwt.encode, jwt.time_claims.
  replace (match families with [] => [] | f :: l => f :: l end) with families
    by (destruct families; reflexivity).
  encode_time_claims.
  rewrite bool_decide_eq_true_2 by encode_serializable.
  eexists; split; [reflexivity|].
  repeat split; simplify_map_eq; reflexivity.
Qed.

Lemma create_verification_token_claims (ga : GoogleAuthService) (email family_name : string)
    (user_id : option Z) (now : datetime) :
  exists claims,
    create_verification_token ga email family_name user_id now
      = Ok (jwt.JWS claims (jwt_secret ga))
    /\ claims !! "email" = Some (PStr email)
    /\ claims !! "family_name" = Some (PStr family_name)
    /\ claims !! "type" = Some (PStr "email_verification")
    /\ claims !! "iat" = Some (PInt (timegm now))
    /\ claims !! "exp" = Some (PInt (timegm (now + timedelta_minutes 30)))
    /\ claims !! "nbf" = None
    /\ claims !! "families" = None
    /\ claims !! "aud" = None.
Proof.
  unfold create_verification_token, jwt.encode, jwt.time_claims.
  encode_time_claims.
  rewrite bool_decide_eq_true_2 by (destruct user_id; encode_serializable).
  eexists; split; [reflexivity|].
  repeat split; simplify_map_eq; reflexivity.
Qed.

(** A token signed with the service's key, issued at or before [now] and
    expiring after it, decodes to its claims. *)
Lemma decode_issued (claims : gmap string pyval) (key : string) (iat exp : Z)
    (now : datetime) :
  claims !! "iat" = Some (PInt iat) ->
  claims !! "nbf" = None ->
  claims !! "exp" = Some (PInt exp) ->
  claims !! "aud" = None ->
  fromtimestamp iat <= now ->
  now < fromtimestamp exp ->
  jwt.decode (jwt.JWS claims key) key now = Ok claims.
Proof.
  intros Hiat Hnbf Hexp Haud Hi He. simpl. rewrite bool_decide_eq_true_2 by reflexivity.
  unfold jwt.validate_claims, jwt.validate_iat, jwt.validate_nbf, jwt.validate_exp,
    jwt.validate_aud.
  rewrite Hiat, Hnbf, Hexp, Haud. simpl.
  destruct (Z.gtb_spec (fromtimestamp iat) now); [lia|]. simpl.
  destruct (Z.leb_spec (fromtimestamp exp) now); [lia|]. reflexivity.
Qed.

Lemma verify_jwt_token_issued (ga : GoogleAuthService) (claims : gmap string pyval)
    (iat exp : Z) (now : datetime) :
  claims !! "iat" = Some (PInt iat) ->
  claims !! "nbf" = None ->
  claims !! "exp" = Some (PInt exp) ->
  claims !! "aud" = None ->
  fromtimestamp iat <= now ->
  now < fromtimestamp exp ->
  verify_jwt_token ga (jwt.JWS claims (jwt_secret ga)) now = Ok (Some claims).
Proof.
  intros Hiat Hnbf Hexp Haud Hi He. unfold verify_jwt_token.
  rewrite (decode_issued claims _ iat exp now) by assumption.
  unfold get. rewrite Hexp. simpl.
  destruct (exp =? 0); simpl; [reflexivity|].
  destruct (Z.ltb_spec (fromtimestamp exp) now); [lia | reflexivity].
Qed.

(** C8. Round trip of the session token: a token issued at [now] for a
    user id, an email and a list of family names, verified at any later
    instant before the expiry it carries, yields a payload with the same
    [user_id], [email] and [families], and with [iat] and [exp] added (the
    issue and expiry instants in whole seconds). *)
Theorem session_token_roundtrip (ga : GoogleAuthService) (user_id : Z) (email : string)
    (families : list string) (expires_hours : Z) (now later : datetime) :
  now <= later ->
  later < fromtimestamp (timegm (now + timedelta_hours expires_hours)) ->
  exists token payload,
    create_jwt_token ga user_id email (Some families) expires_hours now = Ok token
    /\ verify_jwt_token ga token later = Ok (Some payload)
    /\ payload !! "user_id" = Some (PInt user_id)
    /\ payload !! "email" = Some (PStr email)
    /\ payload !! "families" = Some (PList families)
    /\ payload !! "iat" = Some (PInt (timegm now))
    /\ payload !! "exp" = Some (PInt (timegm (now + timedelta_hours expires_hours))).
Proof.
  intros Hle Hlt.
  destruct (create_jwt_token_claims ga user_id email families expires_hours now)
    as (claims & Hc & Hu & Hm & Hf & Hi & He & Hn & _ & Ha).
  exists (jwt.JWS claims (jwt_secret ga)), claims.
  split; [exact Hc|]. split; [|tauto].
  apply (verify_jwt_token_issued ga claims _ _ later Hi Hn He Ha); [|exact Hlt].
  pose proof (fromtimestamp_timegm_le now). lia.
Qed.

Lemma session_token_roundtrip_witness :
  exists token payload,
    create_jwt_token example_auth 7 "a@x.com" (Some ["bull"; "north"]) 24 1500000 = Ok token
    /\ verify_jwt_token example_auth token 3600000000 = Ok (Some payload)
    /\ payload !! "user_id" = Some (PInt 7)
    /\ payload !! "email" = Some (PStr "a@x.com")
    /\ payload !! "families" = Some (PList ["bull"; "north"])
    /\ payload !! "iat" = Some (PInt (timegm 1500000))
    /\ payload !! "exp" = Some (PInt (timegm (1500000 + timedelta_hours 24))).
Proof.
  apply (session_token_roundtrip example_auth 7 "a@x.com" ["bull"; "north"] 24
           1500000 3600000000); [discriminate | reflexivity].
Defined.

Lemma validate_claims_insert_type (claims : gmap string pyval) (v : pyval)
    (now : datetime) :
  jwt.validate_claims (<["type" := v]> claims) now = jwt.validate_claims claims now.
Proof.
  unfold jwt.validate_claims, jwt.validate_iat, jwt.validate_nbf, jwt.validate_exp,
    jwt.validate_aud.
  rewrite !lookup_insert_ne by done. reflexivity.
Qed.

(** X7. [verify_jwt_token] gives the same verdict whatever the [type]
    entry of the token is: it never reads it. *)
Lemma verify_jwt_token_ignores_type (ga : GoogleAuthService) (claims : gmap string pyval)
    (key : string) (v : pyval) (now : datetime) :
  verify_jwt_token ga (jwt.JWS (<["type" := v]> claims) key) now
  = match verify_jwt_token ga (jwt.JWS claims key) now with
    | Ok (Some _) => Ok (Some (<["type" := v]> claims))
    | r => r
    end.
Proof.
  unfold verify_jwt_token, jwt.decode.
  case_bool_decide; [|reflexivity].
  rewrite validate_claims_insert_type.
  destruct (jwt.validate_claims claims now) as [[]|[]]; simpl; try reflexivity.
  unfold get. rewrite lookup_insert_ne by done.
  destruct (claims !! "exp") as [[| e | | |]|]; simpl; try reflexivity.
  - destruct (e =? 0); simpl; [reflexivity|].
    destruct (fromtimestamp e <? now); reflexivity.
  - destruct (String.eqb s ""); reflexivity.
  - destruct l; reflexivity.
Qed.

(** C9. A token made by [create_verification_token] (30-minute expiry,
    type "email_verification", no [families] entry) is accepted by
    [verify_jwt_token] at every instant from its issue to its expiry, and
    [get_current_user] returns its payload as the session's user. *)
Theorem verification_token_accepted_as_session (ga : GoogleAuthService)
    (email family_name : string) (user_id : option Z) (now later : datetime) :
  now <= later ->
  later < fromtimestamp (timegm (now + timedelta_minutes 30)) ->
  exists token payload,
    create_verification_token ga email family_name user_id now = Ok token
    /\ verify_jwt_token ga token later = Ok (Some payload)
    /\ get_current_user ga (Some token) later = Ok (Some payload)
    /\ payload !! "type" = Some (PStr "email_verification")
    /\ payload !! "families" = None
    /\ payload !! "exp" = Some (PInt (timegm (now + timedelta_minutes 30))).
Proof.
  intros Hle Hlt.
  destruct (create_verification_token_claims ga email family_name user_id now)
    as (claims & Hc & _ & _ & Ht & Hi & He & Hn & Hf & Ha).
  assert (Hv : verify_jwt_token ga (jwt.JWS claims (jwt_secret ga)) later
               = Ok (Some claims)).
  { apply (verify_jwt_token_issued ga claims _ _ later Hi Hn He Ha); [|exact Hlt].
    pose proof (fromtimestamp_timegm_le now). lia. }
  exists (jwt.JWS claims (jwt_secret ga)), claims.
  repeat split; try assumption.
  unfold get_current_user. rewrite Hv. simpl.
  rewrite bool_decide_eq_false_2; [reflexivity|].
  intros ->. rewrite lookup_empty in Ht. discriminate Ht.
Qed.

Lemma verification_token_accepted_as_session_witness :
  exists token payload,
    create_verification_token example_auth "a@x.com" "bull" (Some 7) 1500000 = Ok token
    /\ verify_jwt_token example_auth token 600000000 = Ok (Some payload)
    /\ get_current_user example_auth (Some token) 600000000 = Ok (Some payload)
    /\ payload !! "type" = Some (PStr "email_verification")
    /\ payload !! "families" = None
    /\ payload !! "exp" = Some (PInt (timegm (1500000 + timedelta_minutes 30))).
Proof.
  apply (verification_token_accepted_as_session example_auth "a@x.com" "bull" (Some 7)
           1500000 600000000); [discriminate | reflexivity].
Defined.

(** ** The access store *)

(** C3 (as amended). [get_user_families] has one entry per active grant
    row of the user: a family name occurs in the returned list as many times
    as the user has active grant rows for that family. *)
Theorem get_user_families_one_per_grant (db : database) (user_id : Z) (family : string) :
  length (filter (fun name => name = family) (get_user_families db user_id))
  = length (filter (fun r => fa_user_id r = user_id /\ fa_is_active r = true
                             /\ fa_family_name r = family)
                   (family_access db)).
Proof.
  unfold get_user_families.
  induction (family_access db) as [|r l IH]; [reflexivity|].
  rewrite !filter_cons.
  repeat case_decide; simpl; rewrite ?filter_cons; repeat case_decide; simpl;
    try (rewrite IH; reflexivity); exfalso; tauto.
Qed.

(** After two grants of "bull" to Ann the family is listed twice: the list
    returned is not duplicate-free. *)
Lemma get_user_families_lists_family_twice :
  get_user_families db_ann_two_grants 1 = ["bull"; "bull"]
  /\ ~ NoDup (get_user_families db_ann_two_grants 1).
Proof.
  assert (H : get_user_families db_ann_two_grants 1 = ["bull"; "bull"]) by reflexivity.
  split; [exact H|]. rewrite H. intros Hnd.
  apply NoDup_cons in Hnd as [Hin _]. apply Hin. left.
Qed.

(** ** Invitation codes *)

Lemma find_map_preserve {A} (p : A -> bool) (g : A -> A) (l : list A) :
  (forall x, p (g x) = p x) -> find p (map g l) = option_map g (find p l).
Proof.
  intros Hp. induction l as [|x l IH]; simpl; [reflexivity|].
  rewrite Hp. destruct (p x); [reflexivity | exact IH].
Qed.

(** X29. The cases in which [use_invitation_code] refuses: no active row with
    the code, an expiry before [now], or a non-zero [max_uses] reached by
    the counter. It then answers [False] and leaves the store as it was. *)
Lemma use_invitation_code_refuses (db : database) (code : string) (user_id : Z)
    (now : datetime) :
  get_invitation_code db code = None
  \/ (exists invitation,
        get_invitation_code db code = Some invitation
        /\ (is_expired invitation now = true
            \/ exists max_uses, ic_max_uses invitation = Some max_uses
                                /\ max_uses <> 0
                                /\ max_uses <= ic_current_uses invitation)) ->
  use_invitation_code code user_id now db = (Ok false, db).
Proof.
  unfold use_invitation_code.
  intros [-> | (inv & -> & [He | (m & Hm & Hne & Hle)])]; [reflexivity| |].
  - rewrite He. reflexivity.
  - destruct (is_expired inv now); [reflexivity|].
    unfold max_uses_exceeded. rewrite Hm.
    destruct (Z.eqb_spec m 0); [contradiction|].
    destruct (Z.leb_spec m (ic_current_uses inv)); [reflexivity | lia].
Qed.

(** One redemption of a live code whose [max_uses] is 0: it succeeds, adds
    a grant, and leaves the code live with [max_uses] still 0. *)
Lemma use_invitation_code_zero_step (db : database) (code : string)
    (invitation : FamilyInvitationCode) (user_id : Z) (now : datetime) :
  get_invitation_code db code = Some invitation ->
  ic_max_uses invitation = Some 0 ->
  is_expired invitation now = false ->
  user_exists db user_id = true ->
  exists db' invitation' access,
    use_invitation_code code user_id now db = (Ok true, db')
    /\ get_invitation_code db' code = Some invitation'
    /\ ic_max_uses invitation' = Some 0
    /\ ic_expires_at invitation' = ic_expires_at invitation
    /\ ic_current_uses invitation' = ic_current_uses invitation + 1
    /\ users db' = users db
    /\ family_access db' = (family_access db ++ [access])%list
    /\ fa_user_id access = user_id
    /\ fa_family_name access = ic_family_name invitation.
Proof.
  intros Hget Hmax Hexp Huser.
  unfold use_invitation_code. rewrite Hget, Hexp.
  unfold max_uses_exceeded. rewrite Hmax. simpl.
  unfold bind, grant_family_access. rewrite Huser. simpl.
  eexists _, (set_current_uses (ic_current_uses invitation + 1) invitation), _.
  split; [reflexivity|].
  split; [|repeat split; assumption].
  unfold get_invitation_code in *. simpl.
  rewrite find_map_preserve.
  - rewrite Hget. simpl. rewrite Z.eqb_refl. reflexivity.
  - intros r. destruct (ic_id r =? ic_id invitation); reflexivity.
Qed.

(** C10. A live invitation code whose [max_uses] is 0 is never exhausted:
    every redemption in any sequence of redemptions by existing users before
    the code's expiry succeeds and adds a grant row, however many there are. *)
Theorem zero_max_uses_unlimited (code : string) (attempts : list (Z * datetime))
    (db : database) (invitation : FamilyInvitationCode) :
  get_invitation_code db code = Some invitation ->
  ic_max_uses invitation = Some 0 ->
  (forall user_id now, (user_id, now) ∈ attempts ->
     user_exists db user_id = true /\ is_expired invitation now = false) ->
  fst (redeem_all code attempts db) = map (fun _ => Ok true) attempts
  /\ length (family_access (snd (redeem_all code attempts db)))
     = (length (family_access db) + length attempts)%nat.
Proof.
  revert db invitation.
  induction attempts as [|[uid now] rest IH]; intros db inv Hget Hmax Hall.
  - simpl. split; [reflexivity | lia].
  - destruct (Hall uid now (list_elem_of_here _ _)) as [Hu He].
    destruct (use_invitation_code_zero_step db code inv uid now Hget Hmax He Hu)
      as (db' & inv' & access & Hrun & Hget' & Hmax' & Hexp' & _ & Husers & Hfa & _).
    simpl. rewrite Hrun.
    destruct (IH db' inv' Hget' Hmax') as [Hrs Hlen].
    { intros u t Hin. destruct (Hall u t (list_elem_of_further _ _ _ Hin)) as [Hu' He'].
      split.
      - unfold user_exists in *. rewrite Husers. exact Hu'.
      - unfold is_expired in *. rewrite Hexp'. exact He'. }
    destruct (redeem_all code rest db') as [rs db'']. simpl in *.
    split; [rewrite Hrs; reflexivity|].
    rewrite Hlen, Hfa, length_app. simpl. lia.
Qed.

Lemma zero_max_uses_unlimited_witness :
  fst (redeem_all "bullABCD1234" [(2, 4000000); (1, 5000000); (2, 6000000)] db_zero_code)
  = [Ok true; Ok true; Ok true]
  /\ length (family_access
               (snd (redeem_all "bullABCD1234" [(2, 4000000); (1, 5000000); (2, 6000000)]
                       db_zero_code)))
     = 3%nat.
Proof.
  refine (zero_max_uses_unlimited "bullABCD1234" [(2, 4000000); (1, 5000000); (2, 6000000)]
            db_zero_code _ eq_refl eq_refl _).
  intros u t Hin.
  repeat (apply elem_of_cons in Hin as [[= -> ->]|Hin]; [split; reflexivity|]).
  apply elem_of_nil in Hin. contradiction.
Defined.

(** C4. The code of [db_zero_code] has [max_uses = 0] and [current_uses = 0],
    so its counter has reached its maximum; yet Bob's redemption succeeds:
    the store gains a grant of "bull" to Bob, the counter goes to 1, and
    the join-family flow answers with the joined family instead of a 400. *)
Theorem zero_max_uses_code_is_redeemed :
  map (fun r => (ic_code r, ic_max_uses r, ic_current_uses r, ic_is_active r))
      (family_invitation_codes db_zero_code)
  = [("bullABCD1234", Some 0, 0, true)]
  /\ fst (use_invitation_code "bullABCD1234" 2 4000000 db_zero_code) = Ok true
  /\ get_user_families (after (use_invitation_code "bullABCD1234" 2 4000000) db_zero_code) 2
     = ["bull"]
  /\ map ic_current_uses
       (family_invitation_codes
          (after (use_invitation_code "bullABCD1234" 2 4000000) db_zero_code))
     = [1]
  /\ (exists magic_token,
        fst (join_family_with_code example_auth (session_cookie 2 "b@x.com" [] 3500000)
               "bullABCD1234" 4000000 db_zero_code)
        = Ok (FamilyJoined "bull" "bullABCD1234" magic_token))
  /\ get_user_families
       (after (join_family_with_code example_auth (session_cookie 2 "b@x.com" [] 3500000)
                 "bullABCD1234" 4000000) db_zero_code) 2
     = ["bull"].
Proof.
  repeat split; try (vm_compute; reflexivity).
  eexists. vm_compute. reflexivity.
Qed.

(** ** The flows *)

Local Arguments create_verification_token : simpl never.
Local Arguments create_jwt_token : simpl never.
Local Arguments verify_verification_token : simpl never.
Local Arguments verify_jwt_token : simpl never.
Local Arguments get_current_user : simpl never.
Local Arguments Str.strip : simpl never.
Local Arguments Str.lower : simpl never.
Local Arguments Str.title : simpl never.
Local Arguments String.append : simpl never.
Local Arguments is_valid_family : simpl never.
Local Arguments next_id : simpl never.

Lemma create_jwt_token_ok (ga : GoogleAuthService) (user_id : Z) (email : string)
    (families : list string) (expires_hours : Z) (now : datetime) :
  exists token, create_jwt_token ga user_id email (Some families) expires_hours now
                = Ok token.
Proof.
  destruct (create_jwt_token_claims ga user_id email families expires_hours now)
    as (claims & Hc & _). eauto.
Qed.

Lemma create_verification_token_ok (ga : GoogleAuthService) (email family_name : string)
    (user_id : option Z) (now : datetime) :
  exists token, create_verification_token ga email family_name user_id now = Ok token.
Proof.
  destruct (create_verification_token_claims ga email family_name user_id now)
    as (claims & Hc & _). eauto.
Qed.

Lemma get_user_by_email_exists (db : database) (email : string) (user : User) :
  get_user_by_email db email = Some user -> user_exists db (u_id user) = true.
Proof.
  unfold get_user_by_email, user_exists. intros H. apply find_some in H as [Hin _].
  apply existsb_exists. exists user. split; [exact Hin | apply Z.eqb_refl].
Qed.

(** C6. A magic-link login whose token fails verification, or whose
    verified token names an email that no user row has, is answered with
    the redirect to the error page, and the store is left as it was: no
    user row and no grant row is added. *)
Theorem magic_login_soft_failure (ga : GoogleAuthService) (token : jwt.token)
    (now : datetime) (db : database) :
  (forall payload, verify_verification_token ga token now <> Ok (Some payload))
  \/ (exists payload email,
        verify_verification_token ga token now = Ok (Some payload)
        /\ payload !! "email" = Some (PStr email)
        /\ get_user_by_email db email = None) ->
  magic_login ga token now db = (Ok (RedirectResponse error_page None), db).
Proof.
  intros H. unfold magic_login, try_except, bind, lift, raise, ret.
  destruct (verify_verification_token ga token now) as [[payload|]|e] eqn:Hv;
    try reflexivity.
  destruct H as [H | (p & email & [= <-] & Hemail & Huser)].
  { exfalso. exact (H payload eq_refl). }
  unfold getitem. rewrite Hemail. simpl.
  destruct (payload !! "family_name") as [[]|]; simpl; try reflexivity.
  rewrite Huser. reflexivity.
Qed.

Lemma magic_login_soft_failure_witness :
  magic_login example_auth (magic_token "user@x.com" "jones" None 2000000) 3000000 db_ann
  = (Ok (RedirectResponse error_page None), db_ann).
Proof.
  apply (magic_login_soft_failure example_auth
           (magic_token "user@x.com" "jones" None 2000000) 3000000 db_ann).
  right. eexists _, "user@x.com".
  split; [vm_compute; reflexivity|]. split; reflexivity.
Defined.

(** A token that decodes at one instant decodes to the same claims at any
    later instant at which it has not expired. *)
Lemma decode_later (t : jwt.token) (key : string) (payload : gmap string pyval)
    (now later : datetime) :
  jwt.decode t key now = Ok payload ->
  now <= later ->
  jwt.unexpired t later = true ->
  jwt.decode t key later = Ok payload.
Proof.
  destruct t as [claims k|raw]; simpl; [|discriminate].
  case_bool_decide; [|discriminate].
  unfold jwt.validate_claims, jwt.validate_iat, jwt.validate_nbf, jwt.validate_exp.
  intros Hd Hle Hu.
  destruct (claims !! "iat") as [[| i | | |]|]; simpl in *; try discriminate Hd.
  1: destruct (Z.gtb_spec (fromtimestamp i) now); simpl in *; [discriminate Hd|];
     destruct (Z.gtb_spec (fromtimestamp i) later); [lia|]; simpl.
  all: destruct (claims !! "nbf") as [[| n | | |]|]; simpl in *; try discriminate Hd.
  1, 3: destruct (Z.gtb_spec (fromtimestamp n) now); simpl in *; [discriminate Hd|];
     destruct (Z.gtb_spec (fromtimestamp n) later); [lia|]; simpl.
  all: destruct (claims !! "exp") as [[| e | | |]|]; simpl in *; try discriminate Hd;
    try exact Hd.
  all: rewrite Z.ltb_lt in Hu;
    destruct (Z.leb_spec (fromtimestamp e) now); simpl in *; [discriminate Hd|];
    destruct (Z.leb_spec (fromtimestamp e) later); [lia | exact Hd].
Qed.

Lemma verify_verification_token_later (ga : GoogleAuthService) (t : jwt.token)
    (payload : gmap string pyval) (now later : datetime) :
  verify_verification_token ga t now = Ok (Some payload) ->
  now <= later ->
  jwt.unexpired t later = true ->
  verify_verification_token ga t later = Ok (Some payload).
Proof.
  unfold verify_verification_token. intros Hv Hle Hu.
  destruct (jwt.decode t (jwt_secret ga) now) as [p|e] eqn:Hd.
  - rewrite (decode_later t _ p now later Hd Hle Hu). exact Hv.
  - destruct e; discriminate Hv.
Qed.

(** What a successful magic-link login rests on, and what it does to the
    table of users. *)
Lemma magic_login_success_inv (ga : GoogleAuthService) (token : jwt.token)
    (now : datetime) (db db' : database) (r : result response) :
  magic_login ga token now db = (r, db') ->
  login_succeeded r ->
  exists payload email family_name user,
    verify_verification_token ga token now = Ok (Some payload)
    /\ payload !! "email" = Some (PStr email)
    /\ payload !! "family_name" = Some (PStr family_name)
    /\ get_user_by_email db email = Some user
    /\ users db' = map (fun u => if u_id u =? u_id user then stamp_login now u else u)
                       (users db).
Proof.
  intros Hrun (url & tok & ->). revert Hrun.
  unfold magic_login, try_except, bind, lift, raise, ret, getitem.
  destruct (verify_verification_token ga token now) as [[payload|]|e]; simpl;
    try discriminate.
  destruct (payload !! "email") as [[| | email | |]|] eqn:He; simpl; try discriminate.
  destruct (payload !! "family_name") as [[| | fam | |]|] eqn:Hf; simpl; try discriminate.
  destruct (get_user_by_email db email) as [user|] eqn:Hu; simpl; try discriminate.
  pose proof (get_user_by_email_exists db email user Hu) as Hex.
  case_bool_decide; simpl.
  - destruct (create_jwt_token_ok ga (u_id user) email
                (get_user_families db (u_id user)) 24 now) as [t Ht].
    rewrite Ht. simpl. intros [= _ _ <-].
    exists payload, email, fam, user. repeat split; assumption || reflexivity.
  - unfold grant_family_access. rewrite Hex. simpl.
    destruct (create_jwt_token_ok ga (u_id user) email
                (get_user_families db (u_id user) ++ [fam])%list 24 now) as [t Ht].
    rewrite Ht. simpl. intros [= _ _ <-].
    exists payload, email, fam, user. repeat split; assumption || reflexivity.
Qed.

(** A verified token with a string email and family name, naming an
    existing user, logs that user in. *)
Lemma magic_login_accepts (ga : GoogleAuthService) (token : jwt.token)
    (now : datetime) (db : database) (payload : gmap string pyval)
    (email family_name : string) (user : User) :
  verify_verification_token ga token now = Ok (Some payload) ->
  payload !! "email" = Some (PStr email) ->
  payload !! "family_name" = Some (PStr family_name) ->
  get_user_by_email db email = Some user ->
  exists session db',
    magic_login ga token now db
    = (Ok (RedirectResponse (family_page family_name) (Some session)), db').
Proof.
  intros Hv He Hf Hu.
  pose proof (get_user_by_email_exists db email user Hu) as Hex.
  unfold magic_login, try_except, bind, lift, raise, ret, getitem.
  rewrite Hv, He. simpl. rewrite Hf. simpl. rewrite Hu.
  case_bool_decide; simpl.
  - destruct (create_jwt_token_ok ga (u_id user) email
                (get_user_families db (u_id user)) 24 now) as [t Ht].
    rewrite Ht. simpl. eauto.
  - unfold grant_family_access. rewrite Hex. simpl.
    destruct (create_jwt_token_ok ga (u_id user) email
                (get_user_families db (u_id user) ++ [family_name])%list 24 now)
      as [t Ht].
    rewrite Ht. simpl. eauto.
Qed.

(** C7 (as amended). A magic link is limited by its expiry only: after a
    successful login with a token, every later login with the same token
    that comes before the token's expiry succeeds as well. *)
Theorem magic_login_repeatable (ga : GoogleAuthService) (token : jwt.token)
    (now later : datetime) (db db' : database) (r : result response) :
  magic_login ga token now db = (r, db') ->
  login_succeeded r ->
  now <= later ->
  jwt.unexpired token later = true ->
  login_succeeded (fst (magic_login ga token later db')).
Proof.
  intros Hrun Hok Hle Hu.
  destruct (magic_login_success_inv ga token now db db' r Hrun Hok)
    as (payload & email & fam & user & Hv & He & Hf & Hget & Husers).
  apply (verify_verification_token_later ga token payload now later) in Hv;
    [|assumption..].
  assert (Hget' : exists user', get_user_by_email db' email = Some user').
  { unfold get_user_by_email in *. rewrite Husers, find_map_preserve.
    - rewrite Hget. simpl. eauto.
    - intros u. destruct (u_id u =? u_id user); reflexivity. }
  destruct Hget' as [user' Hget'].
  destruct (magic_login_accepts ga token later db' payload email fam user'
              Hv He Hf Hget') as (session & db'' & ->).
  simpl. unfold login_succeeded. eauto.
Qed.

Lemma magic_login_repeatable_witness :
  login_succeeded
    (fst (magic_login example_auth (magic_token "user@x.com" "jones" (Some 2) 2000000)
            900000000
            (after (magic_login example_auth
                      (magic_token "user@x.com" "jones" (Some 2) 2000000) 3000000)
                   db_ann_user))).
Proof.
  refine (magic_login_repeatable example_auth
            (magic_token "user@x.com" "jones" (Some 2) 2000000) 3000000 900000000
            db_ann_user _ _ (surjective_pairing _) _ _ _).
  - eexists _, _. vm_compute. reflexivity.
  - discriminate.
  - vm_compute. reflexivity.
Defined.

(** One magic token, two logins a quarter of an hour apart: both end in a
    session for the family of the link. *)
Lemma magic_token_logs_in_twice :
  let token := magic_token "user@x.com" "jones" (Some 2) 2000000 in
  let first := magic_login example_auth token 3000000 db_ann_user in
  let second := magic_login example_auth token 900000000 (snd first) in
  (exists session, fst first
                   = Ok (RedirectResponse (family_page "jones") (Some session)))
  /\ (exists session, fst second
                      = Ok (RedirectResponse (family_page "jones") (Some session))).
Proof.
  split; eexists; vm_compute; reflexivity.
Qed.

(** When the redemption is refused, the join-family flow answers an
    authenticated, registered user with the client error 400 and leaves the
    store as it was. *)
Lemma join_family_with_code_refuses (ga : GoogleAuthService)
    (authorization : option jwt.token) (code : string) (now : datetime) (db : database)
    (payload : gmap string pyval) (email : string) (db_user : User) :
  get_current_user ga authorization now = Ok (Some payload) ->
  payload !! "email" = Some (PStr email) ->
  get_user_by_email db email = Some db_user ->
  use_invitation_code code (u_id db_user) now db = (Ok false, db) ->
  join_family_with_code ga authorization code now db
  = (Raise (HTTPException 400 (Msg "Invalid or expired invitation code")), db).
Proof.
  intros Hauth Hemail Huser Huse.
  unfold join_family_with_code, bind, lift, raise, getitem.
  rewrite Hauth. simpl. rewrite Hemail. simpl. rewrite Huser, Huse. reflexivity.
Qed.

(** ** Family names and the allow-list *)






(** * Further properties of the code *)

(** ** Tokens: keys, kinds and validity windows *)

(** What [jwt.decode] answers for a token signed with the expected key
    that carries integer [iat] and [exp] claims and no [nbf] or [aud]. *)
Lemma decode_issued_cases (claims : gmap string pyval) (key : string) (iat exp : Z)
    (now : datetime) :
  claims !! "iat" = Some (PInt iat) ->
  claims !! "nbf" = None ->
  claims !! "exp" = Some (PInt exp) ->
  claims !! "aud" = None ->
  jwt.decode (jwt.JWS claims key) key now
  = if fromtimestamp iat >? now then Raise (InvalidTokenError "ImmatureSignatureError")
    else if fromtimestamp exp <=? now then Raise ExpiredSignatureError
         else Ok claims.
Proof.
  intros Hiat Hnbf Hexp Haud. simpl. rewrite bool_decide_eq_true_2 by reflexivity.
  unfold jwt.validate_claims, jwt.validate_iat, jwt.validate_nbf, jwt.validate_exp,
    jwt.validate_aud.
  rewrite Hiat, Hnbf, Hexp, Haud. simpl.
  destruct (fromtimestamp iat >? now); simpl; [reflexivity|].
  destruct (fromtimestamp exp <=? now); reflexivity.
Qed.

(** X1. A token that is not signed with the service's secret, be it signed
    with another key or not a token at all, is accepted by neither
    verifier, whatever it claims: both answer [None]. *)
Theorem foreign_token_rejected (ga : GoogleAuthService) (token : jwt.token)
    (now : datetime) :
  (forall claims, token <> jwt.JWS claims (jwt_secret ga)) ->
  verify_jwt_token ga token now = Ok None
  /\ verify_verification_token ga token now = Ok None
  /\ get_current_user ga (Some token) now = Ok None.
Proof.
  intros Hforeign.
  assert (Hd : exists name, jwt.decode token (jwt_secret ga) now
                            = Raise (InvalidTokenError name)).
  { destruct token as [claims key|raw]; simpl; [|eauto].
    case_bool_decide as Hk; [|eauto].
    subst key. exfalso. exact (Hforeign claims eq_refl). }
  destruct Hd as [name Hd].
  unfold get_current_user, verify_jwt_token, verify_verification_token.
  rewrite Hd. auto.
Qed.

Lemma foreign_token_rejected_witness :
  verify_jwt_token example_auth
    (jwt.JWS (<["user_id" := PInt 1]> (<["email" := PStr "a@x.com"]> ∅)) "guess") 5000000
  = Ok None
  /\ verify_verification_token example_auth
       (jwt.JWS (<["user_id" := PInt 1]> (<["email" := PStr "a@x.com"]> ∅)) "guess") 5000000
     = Ok None
  /\ get_current_user example_auth
       (Some (jwt.JWS (<["user_id" := PInt 1]> (<["email" := PStr "a@x.com"]> ∅)) "guess"))
       5000000
     = Ok None.
Proof.
  apply (foreign_token_rejected example_auth
           (jwt.JWS (<["user_id" := PInt 1]> (<["email" := PStr "a@x.com"]> ∅)) "guess")
           5000000).
  intros claims H. inversion H.
Defined.

(** X2. A session token is no magic link: at every instant
    [verify_verification_token] answers [None] for a token made by
    [create_jwt_token], and [magic_login] answers it with the redirect to
    the error page and leaves the store as it was. *)
Theorem session_token_is_no_magic_link (ga : GoogleAuthService) (user_id : Z)
    (email : string) (families : list string) (expires_hours : Z)
    (now later : datetime) :
  exists token,
    create_jwt_token ga user_id email (Some families) expires_hours now = Ok token
    /\ verify_verification_token ga token later = Ok None
    /\ forall db, magic_login ga token later db
                  = (Ok (RedirectResponse error_page None), db).
Proof.
  destruct (create_jwt_token_claims ga user_id email families expires_hours now)
    as (claims & Hc & _ & _ & _ & Hi & He & Hn & Ht & Ha).
  exists (jwt.JWS claims (jwt_secret ga)). split; [exact Hc|].
  assert (Hv : verify_verification_token ga (jwt.JWS claims (jwt_secret ga)) later
               = Ok None).
  { unfold verify_verification_token.
    rewrite (decode_issued_cases claims _ _ _ later Hi Hn He Ha).
    destruct (_ >? later); [reflexivity|].
    destruct (_ <=? later); [reflexivity|].
    unfold get. rewrite Ht. reflexivity. }
  split; [exact Hv|].
  intros db. unfold magic_login, try_except, bind, lift. rewrite Hv. reflexivity.
Qed.

Lemma create_verification_token_user_id (ga : GoogleAuthService)
    (email family_name : string) (user_id : option Z) (now : datetime) :
  exists claims,
    create_verification_token ga email family_name user_id now
      = Ok (jwt.JWS claims (jwt_secret ga))
    /\ claims !! "user_id"
       = Some (match user_id with Some u => PInt u | None => PNone end).
Proof.
  unfold create_verification_token, jwt.encode, jwt.time_claims.
  encode_time_claims.
  rewrite bool_decide_eq_true_2 by (destruct user_id; encode_serializable).
  eexists; split; [reflexivity|]. simplify_map_eq. reflexivity.
Qed.

(** X3. Round trip of the verification token: issued at [now] and verified
    by [verify_verification_token] at a later instant before the expiry it
    carries, it yields a payload with the email, the family name and the
    user id it was issued for, and with the type "email_verification". *)
Theorem verification_token_roundtrip (ga : GoogleAuthService)
    (email family_name : string) (user_id : Z) (now later : datetime) :
  now <= later ->
  later < fromtimestamp (timegm (now + timedelta_minutes 30)) ->
  exists token payload,
    create_verification_token ga email family_name (Some user_id) now = Ok token
    /\ verify_verification_token ga token later = Ok (Some payload)
    /\ payload !! "email" = Some (PStr email)
    /\ payload !! "family_name" = Some (PStr family_name)
    /\ payload !! "user_id" = Some (PInt user_id)
    /\ payload !! "type" = Some (PStr "email_verification").
Proof.
  intros Hle Hlt.
  destruct (create_verification_token_claims ga email family_name (Some user_id) now)
    as (claims & Hc & Hm & Hf & Ht & Hi & He & Hn & _ & Ha).
  exists (jwt.JWS claims (jwt_secret ga)), claims.
  split; [exact Hc|]. split.
  - unfold verify_verification_token.
    rewrite (decode_issued claims _ _ _ later Hi Hn He Ha); [| |exact Hlt].
    + unfold get. rewrite Ht. reflexivity.
    + pose proof (fromtimestamp_timegm_le now). lia.
  - repeat split; try assumption.
    destruct (create_verification_token_user_id ga email family_name (Some user_id) now)
      as (c & Hc' & Hu).
    rewrite Hc in Hc'. injection Hc' as <-. exact Hu.
Qed.

Lemma verification_token_roundtrip_witness :
  exists token payload,
    create_verification_token example_auth "a@x.com" "bull" (Some 7) 1500000 = Ok token
    /\ verify_verification_token example_auth token 600000000 = Ok (Some payload)
    /\ payload !! "email" = Some (PStr "a@x.com")
    /\ payload !! "family_name" = Some (PStr "bull")
    /\ payload !! "user_id" = Some (PInt 7)
    /\ payload !! "type" = Some (PStr "email_verification").
Proof.
  apply (verification_token_roundtrip example_auth "a@x.com" "bull" 7 1500000 600000000);
    [discriminate | reflexivity].
Defined.

(** X4. Outside its window a session token is dead: verified before the
    second it was issued in, or at or after the instant of its [exp] claim,
    a token made by [create_jwt_token] gets [None] from [verify_jwt_token],
    and [get_current_user] finds no user. *)
Theorem session_token_rejected_outside_window (ga : GoogleAuthService) (user_id : Z)
    (email : string) (families : list string) (expires_hours : Z)
    (now later : datetime) :
  later < fromtimestamp (timegm now)
  \/ fromtimestamp (timegm (now + timedelta_hours expires_hours)) <= later ->
  exists token,
    create_jwt_token ga user_id email (Some families) expires_hours now = Ok token
    /\ verify_jwt_token ga token later = Ok None
    /\ get_current_user ga (Some token) later = Ok None.
Proof.
  intros Hout.
  destruct (create_jwt_token_claims ga user_id email families expires_hours now)
    as (claims & Hc & _ & _ & _ & Hi & He & Hn & _ & Ha).
  exists (jwt.JWS claims (jwt_secret ga)). split; [exact Hc|].
  assert (Hv : verify_jwt_token ga (jwt.JWS claims (jwt_secret ga)) later = Ok None).
  { unfold verify_jwt_token.
    rewrite (decode_issued_cases claims _ _ _ later Hi Hn He Ha).
    destruct (Z.gtb_spec (fromtimestamp (timegm now)) later); [reflexivity|].
    destruct (Z.leb_spec (fromtimestamp (timegm (now + timedelta_hours expires_hours)))
                later); [reflexivity | lia]. }
  split; [exact Hv|]. unfold get_current_user. rewrite Hv. reflexivity.
Qed.

Lemma session_token_rejected_outside_window_witness :
  exists token,
    create_jwt_token example_auth 7 "a@x.com" (Some ["bull"]) 24 1500000 = Ok token
    /\ verify_jwt_token example_auth token 86401000000 = Ok None
    /\ get_current_user example_auth (Some token) 86401000000 = Ok None.
Proof.
  apply (session_token_rejected_outside_window example_auth 7 "a@x.com" ["bull"] 24
           1500000 86401000000).
  right. discriminate.
Defined.

(** X5. A magic link dies with its token: from the instant of the [exp]
    claim on, thirty minutes after the issue, [magic_login] answers a token
    made by [create_verification_token] with the redirect to the error page
    and writes nothing. *)
Theorem magic_link_expires (ga : GoogleAuthService) (email family_name : string)
    (user_id : option Z) (now later : datetime) :
  fromtimestamp (timegm (now + timedelta_minutes 30)) <= later ->
  exists token,
    create_verification_token ga email family_name user_id now = Ok token
    /\ verify_verification_token ga token later = Ok None
    /\ forall db, magic_login ga token later db
                  = (Ok (RedirectResponse error_page None), db).
Proof.
  intros Hlate.
  destruct (create_verification_token_claims ga email family_name user_id now)
    as (claims & Hc & _ & _ & _ & Hi & He & Hn & _ & Ha).
  exists (jwt.JWS claims (jwt_secret ga)). split; [exact Hc|].
  assert (Hv : verify_verification_token ga (jwt.JWS claims (jwt_secret ga)) later
               = Ok None).
  { unfold verify_verification_token.
    rewrite (decode_issued_cases claims _ _ _ later Hi Hn He Ha).
    destruct (_ >? later); [reflexivity|].
    destruct (Z.leb_spec (fromtimestamp (timegm (now + timedelta_minutes 30))) later);
      [reflexivity | lia]. }
  split; [exact Hv|].
  intros db. unfold magic_login, try_except, bind, lift. rewrite Hv. reflexivity.
Qed.

Lemma magic_link_expires_witness :
  exists token,
    create_verification_token example_auth "a@x.com" "bull" (Some 1) 1500000 = Ok token
    /\ verify_verification_token example_auth token 1801000000 = Ok None
    /\ forall db, magic_login example_auth token 1801000000 db
                  = (Ok (RedirectResponse error_page None), db).
Proof.
  apply (magic_link_expires example_auth "a@x.com" "bull" (Some 1) 1500000 1801000000).
  discriminate.
Defined.



(** X8. [get_current_user] returns a payload only for a token signed with
    the service's secret that has not expired, and the payload is that
    token's claims. *)
Theorem get_current_user_sound (ga : GoogleAuthService) (token : jwt.token)
    (payload : gmap string pyval) (now : datetime) :
  get_current_user ga (Some token) now = Ok (Some payload) ->
  token = jwt.JWS payload (jwt_secret ga)
  /\ jwt.unexpired token now = true
  /\ payload <> ∅.
Proof.
  unfold get_current_user, verify_jwt_token. intros H.
  destruct token as [claims key|raw]; simpl in H; [|discriminate H].
  case_bool_decide as Hk; [|discriminate H]. subst key.
  destruct (jwt.validate_claims claims now) as [[]|e] eqn:Hval; simpl in H;
    [|destruct e; discriminate H].
  assert (Hexp : forall e, claims !! "exp" = Some (PInt e) -> now < fromtimestamp e).
  { intros e He. revert Hval.
    unfold jwt.validate_claims, jwt.validate_exp. rewrite He.
    destruct (jwt.validate_iat claims now) as [[]|]; simpl; [|discriminate].
    destruct (jwt.validate_nbf claims now) as [[]|]; simpl; [|discriminate].
    destruct (Z.leb_spec (fromtimestamp e) now); [discriminate | lia]. }
  assert (Hp : payload = claims /\ payload <> ∅).
  { unfold get in H.
    destruct (truthy (default PNone (claims !! "exp")));
      [destruct (default PNone (claims !! "exp")) as [| e | | |]; try discriminate H;
       destruct (fromtimestamp e <? now); simpl in H; try discriminate H|];
      simpl in H; case_bool_decide; try discriminate H;
      injection H as <-; auto. }
  destruct Hp as [-> Hne]. repeat split; [|exact Hne].
  simpl. destruct (claims !! "exp") as [[| e | | |]|] eqn:He; try reflexivity.
  apply Z.ltb_lt. auto.
Qed.

Lemma get_current_user_sound_witness :
  magic_token "a@x.com" "bull" (Some 1) 1500000
  = jwt.JWS (<["email" := PStr "a@x.com"]>
               (<["family_name" := PStr "bull"]>
                  (<["user_id" := PInt 1]>
                     (<["type" := PStr "email_verification"]>
                        (<["iat" := PInt 1]>
                           (<["exp" := PInt 1801]>
                              (<["iss" := PStr "family-genealogy-platform"]> ∅)))))))
            (jwt_secret example_auth)
  /\ jwt.unexpired (magic_token "a@x.com" "bull" (Some 1) 1500000) 2000000 = true
  /\ (<["email" := PStr "a@x.com"]>
        (<["family_name" := PStr "bull"]>
           (<["user_id" := PInt 1]>
              (<["type" := PStr "email_verification"]>
                 (<["iat" := PInt 1]>
                    (<["exp" := PInt 1801]>
                       (<["iss" := PStr "family-genealogy-platform"]> ∅))))))
      : gmap string pyval) <> ∅.
Proof.
  apply (get_current_user_sound example_auth
           (magic_token "a@x.com" "bull" (Some 1) 1500000) _ 2000000).
  vm_compute. reflexivity.
Defined.

(** ** The state parameter of the OAuth exchange *)

Lemma split_once_append (c : ascii) (x y : string) :
  Str.contains c x = false ->
  Str.split_once c (x +:+ String c y) = Some (x, y).
Proof.
  induction x as [|a x IH]; simpl.
  - intros _. rewrite Ascii.eqb_refl. reflexivity.
  - destruct (Ascii.eqb a c); [discriminate|]. intros H. rewrite (IH H). reflexivity.
Qed.

Lemma contains_append (c : ascii) (x y : string) :
  Str.contains c (x +:+ String c y) = true.
Proof.
  induction x as [|a x IH]; simpl.
  - rewrite Ascii.eqb_refl. reflexivity.
  - destruct (Ascii.eqb a c); [reflexivity | exact IH].
Qed.

(** X9. The state that [get_authorization_url] builds from a family name
    without a colon is taken apart again by [exchange_code_for_tokens]: a
    successful exchange returns that family name and the caller's state (or
    the fresh random state when the caller gave none). *)
Theorem exchange_recovers_authorization_state (family_name : string)
    (state : option string) (fresh code : string) (info : idinfo) :
  Str.contains ":" family_name = false ->
  exchange_code_for_tokens (ProviderIdInfo info) code
    (authorization_state family_name state fresh)
  = ExchangeSuccess
      {| ui_google_id := id_sub info;
         ui_email := id_email info;
         ui_name := id_name info;
         ui_picture := id_picture info;
         ui_email_verified := id_email_verified info |}
      (Some family_name)
      (match state with
       | Some s => if String.eqb s "" then fresh else s
       | None => fresh
       end).
Proof.
  intros Hfam. unfold exchange_code_for_tokens, authorization_state.
  set (st := match state with
             | Some s => if String.eqb s "" then fresh else s
             | None => fresh
             end).
  change (family_name +:+ ":" +:+ st) with (family_name +:+ String ":" st).
  rewrite contains_append. cbn [Str.split].
  rewrite (split_once_append ":" family_name st Hfam). reflexivity.
Qed.

Lemma exchange_recovers_authorization_state_witness :
  exchange_code_for_tokens
    (ProviderIdInfo {| id_sub := Some "g-1"; id_email := Some "a@x.com";
                       id_name := Some "Ann"; id_picture := None;
                       id_email_verified := true |})
    "code" (authorization_state "bull" (Some "csrf-token") "unused")
  = ExchangeSuccess
      {| ui_google_id := Some "g-1"; ui_email := Some "a@x.com"; ui_name := Some "Ann";
         ui_picture := None; ui_email_verified := true |}
      (Some "bull") "csrf-token".
Proof.
  apply (exchange_recovers_authorization_state "bull" (Some "csrf-token") "unused" "code").
  reflexivity.
Defined.

(** ** The tables *)

Lemma find_app_last {A} (p : A -> bool) (l : list A) (x : A) :
  existsb p l = false -> find p (l ++ [x]) = if p x then Some x else None.
Proof.
  induction l as [|a l IH]; simpl; [reflexivity|].
  destruct (p a); simpl; [discriminate | exact IH].
Qed.

Lemma find_app_other {A} (p : A -> bool) (l : list A) (x : A) :
  p x = false -> find p (l ++ [x]) = find p l.
Proof.
  intros Hx. induction l as [|a l IH]; simpl.
  - rewrite Hx. reflexivity.
  - destruct (p a); [reflexivity | exact IH].
Qed.

(** X10. A user that [create_user] has stored is found again, by email
    and by Google id, as the row that was returned; it is not yet verified
    and has never logged in; and the lookup of every other email is as it
    was. *)
Theorem create_user_then_lookup (email : string) (google_id name picture_url : option string)
    (now : datetime) (db db' : database) (user : User) :
  create_user email google_id name picture_url now db = (Ok user, db') ->
  get_user_by_email db' email = Some user
  /\ get_user_by_google_id db' (u_google_id user) = Some user
  /\ google_id = Some (u_google_id user)
  /\ u_verified_at user = None
  /\ u_last_login user = None
  /\ get_user_by_email db email = None
  /\ forall other, other <> email ->
       get_user_by_email db' other = get_user_by_email db other.
Proof.
  unfold create_user.
  destruct google_id as [gid|]; [|discriminate].
  destruct name as [nm|]; [|discriminate].
  destruct (existsb _ (users db)) eqn:Hdup; [discriminate|].
  intros [= <- <-].
  assert (Hemail : existsb (fun u => bool_decide (u_email u = email)) (users db) = false).
  { apply not_true_is_false. intros H. apply existsb_exists in H as (u & Hin & Hu).
    apply not_true_iff_false in Hdup. apply Hdup. apply existsb_exists.
    exists u. split; [exact Hin|]. rewrite Hu. reflexivity. }
  assert (Hgid : existsb (fun u => bool_decide (u_google_id u = gid)) (users db) = false).
  { apply not_true_is_false. intros H. apply existsb_exists in H as (u & Hin & Hu).
    apply not_true_iff_false in Hdup. apply Hdup. apply existsb_exists.
    exists u. split; [exact Hin|]. rewrite Hu. apply orb_true_r. }
  unfold get_user_by_email, get_user_by_google_id. simpl.
  rewrite !find_app_last by assumption. simpl.
  rewrite !bool_decide_eq_true_2 by reflexivity.
  repeat split; try reflexivity.
  - destruct (find _ (users db)) as [u|] eqn:Hf; [|reflexivity].
    apply find_some in Hf as [Hin Hu].
    apply not_true_iff_false in Hemail. exfalso. apply Hemail.
    apply existsb_exists. eauto.
  - intros other Hne. apply find_app_other. simpl.
    apply bool_decide_eq_false_2. congruence.
Qed.

Lemma create_user_then_lookup_witness :
  get_user_by_email db_ann "a@x.com" = Some ann
  /\ get_user_by_google_id db_ann "google-ann" = Some ann
  /\ get_user_by_email empty_database "a@x.com" = None.
Proof.
  assert (Hrun : create_user "a@x.com" (Some "google-ann") (Some "Ann") None 1000000
                   empty_database = (Ok ann, db_ann)) by reflexivity.
  destruct (create_user_then_lookup _ _ _ _ _ _ _ _ Hrun) as (H1 & H2 & _ & _ & _ & H3 & _).
  auto.
Defined.

(** X11. [create_user] keeps emails and Google ids unique: if no two rows
    of the table share an email or a Google id, the same holds after
    [create_user], whether it stored a row or raised. *)
Theorem create_user_keeps_unique (email : string) (google_id name picture_url : option string)
    (now : datetime) (db : database) :
  NoDup (map u_email (users db)) ->
  NoDup (map u_google_id (users db)) ->
  NoDup (map u_email (users (after (create_user email google_id name picture_url now) db)))
  /\ NoDup (map u_google_id
              (users (after (create_user email google_id name picture_url now) db))).
Proof.
  intros He Hg. unfold after, create_user.
  destruct google_id as [gid|]; [|auto]. destruct name as [nm|]; [|auto].
  destruct (existsb _ (users db)) eqn:Hdup; [auto|]. simpl.
  assert (Hnone : forall u, u ∈ users db -> u_email u <> email /\ u_google_id u <> gid).
  { intros u Hin. apply not_true_iff_false in Hdup.
    split; intros Heq; apply Hdup; apply existsb_exists; exists u;
      (split; [apply list_elem_of_In; exact Hin|]);
      rewrite (bool_decide_eq_true_2 _ Heq); [reflexivity | apply orb_true_r]. }
  rewrite !map_app. simpl. split; apply NoDup_app; (split; [assumption|]);
    (split; [|apply NoDup_singleton]); intros x Hx Hx';
    apply list_elem_of_singleton in Hx'; subst x;
    apply list_elem_of_fmap in Hx as (u & Hu & Hin);
    destruct (Hnone u Hin); congruence.
Qed.

Lemma create_user_keeps_unique_witness :
  NoDup (map u_email
           (users (after (create_user "a@x.com" (Some "google-other") (Some "Al") None
                            2000000) db_ann)))
  /\ NoDup (map u_google_id
              (users (after (create_user "a@x.com" (Some "google-other") (Some "Al") None
                               2000000) db_ann))).
Proof.
  apply (create_user_keeps_unique "a@x.com" (Some "google-other") (Some "Al") None
           2000000 db_ann);
    (apply NoDup_cons; split; [intros H; inversion H | apply NoDup_nil_2]).
Defined.

Lemma get_user_families_grant (db : database) (access : FamilyAccess) (user_id : Z) :
  get_user_families
    {| users := users db;
       family_access := family_access db ++ [access];
       user_consent := user_consent db;
       family_invitation_codes := family_invitation_codes db |} user_id
  = (get_user_families db user_id
     ++ (if bool_decide (fa_user_id access = user_id /\ fa_is_active access = true)
         then [fa_family_name access] else []))%list.
Proof.
  unfold get_user_families. simpl. rewrite filter_app, map_app. f_equal.
  rewrite filter_cons, filter_nil.
  case_decide; case_bool_decide; try tauto; reflexivity.
Qed.

(** X12. A grant shows up in the listing: after [grant_family_access]
    has stored a row for a user, [get_user_families] lists what it listed
    before followed by the new family, and the listing of every other user
    is as it was. *)
Theorem grant_then_list (user_id : Z) (family_name granted_by : string)
    (now : datetime) (db db' : database) (access : FamilyAccess) :
  grant_family_access user_id family_name granted_by now db = (Ok access, db') ->
  get_user_families db' user_id = (get_user_families db user_id ++ [family_name])%list
  /\ (forall other, other <> user_id ->
        get_user_families db' other = get_user_families db other)
  /\ user_exists db user_id = true.
Proof.
  unfold grant_family_access.
  destruct (user_exists db user_id) eqn:Hex; [|discriminate].
  intros [= <- <-]. split; [|split; [|reflexivity]].
  - rewrite get_user_families_grant. simpl.
    rewrite bool_decide_eq_true_2 by auto. reflexivity.
  - intros other Hne. rewrite get_user_families_grant. simpl.
    rewrite bool_decide_eq_false_2 by (intros [? _]; congruence).
    apply app_nil_r.
Qed.

Lemma grant_then_list_witness :
  get_user_families (after (grant_family_access 1 "north" "admin" 2000000) db_ann) 1
  = ["north"].
Proof.
  refine (proj1 (grant_then_list 1 "north" "admin" 2000000 db_ann _ _
                   (surjective_pairing _))).
Defined.

(** X13. A grant for a user id that no row of [users] has is refused:
    [grant_family_access] raises the integrity error of the foreign key and
    stores nothing. *)
Theorem grant_needs_user (user_id : Z) (family_name granted_by : string)
    (now : datetime) (db : database) :
  (forall u, u ∈ users db -> u_id u <> user_id) ->
  grant_family_access user_id family_name granted_by now db = (Raise IntegrityError, db).
Proof.
  intros Hnone. unfold grant_family_access.
  destruct (user_exists db user_id) eqn:Hex; [|reflexivity].
  unfold user_exists in Hex. apply existsb_exists in Hex as (u & Hin & Hu).
  apply Z.eqb_eq in Hu. exfalso. apply (Hnone u); [apply list_elem_of_In|]; assumption.
Qed.

Lemma grant_needs_user_witness :
  grant_family_access 42 "bull" "admin" 2000000 db_ann = (Raise IntegrityError, db_ann).
Proof.
  apply (grant_needs_user 42 "bull" "admin" 2000000 db_ann).
  intros u Hin. apply list_elem_of_singleton in Hin as ->. discriminate.
Defined.

(** ** Invitation codes: creation and redemption *)

Lemma startswith_append (p r : string) : Str.startswith p (p +:+ r) = true.
Proof.
  induction p as [|a p IH]; simpl; [reflexivity|].
  rewrite Ascii.eqb_refl. exact IH.
Qed.

(** X14. A code that [create_invitation_code] has stored is the family
    name, lowered by Python's [lower], followed by the random part; it is
    found again by [get_invitation_code], unused, with the family name and
    the limit it was created with; it is among its creator's codes; and the
    lookup of every other code is as it was. *)
Theorem create_invitation_code_then_lookup (py : PyStr.t) (user_id : Z)
    (family_name : string) (description : option string)
    (max_uses expires_days : option Z) (random_part : string) (now : datetime)
    (db db' : database) (code : string) :
  create_invitation_code py user_id family_name description max_uses expires_days
    random_part now db = (Ok code, db') ->
  code = PyStr.lower py family_name +:+ random_part
  /\ Str.startswith (PyStr.lower py family_name) code = true
  /\ (exists invitation,
        get_invitation_code db' code = Some invitation
        /\ ic_family_name invitation = family_name
        /\ ic_created_by_user_id invitation = user_id
        /\ ic_max_uses invitation = max_uses
        /\ ic_current_uses invitation = 0
        /\ invitation ∈ get_user_invitation_codes db' user_id)
  /\ get_invitation_code db code = None
  /\ forall other, other <> code ->
       get_invitation_code db' other = get_invitation_code db other.
Proof.
  unfold create_invitation_code.
  destruct (user_exists db user_id); simpl; [|discriminate].
  destruct (existsb _ (family_invitation_codes db)) eqn:Hdup; [discriminate|].
  intros [= <- <-].
  split; [reflexivity|]. split; [apply startswith_append|].
  assert (Hfresh : existsb (fun r => bool_decide (ic_code r = PyStr.lower py family_name
                                                               +:+ random_part)
                                     && ic_is_active r)
                     (family_invitation_codes db) = false).
  { apply not_true_is_false. intros H. apply existsb_exists in H as (r & Hin & Hr).
    apply andb_true_iff in Hr as [Hr _].
    apply not_true_iff_false in Hdup. apply Hdup. apply existsb_exists. eauto. }
  unfold get_invitation_code, get_user_invitation_codes. simpl.
  split; [|split].
  - eexists. rewrite find_app_last by exact Hfresh. simpl.
    rewrite bool_decide_eq_true_2 by reflexivity. simpl.
    repeat split; try reflexivity.
    apply list_elem_of_filter. simpl. split; [auto|].
    apply elem_of_app. right. apply list_elem_of_singleton. reflexivity.
  - destruct (find _ (family_invitation_codes db)) as [r|] eqn:Hf; [|reflexivity].
    apply find_some in Hf as [Hin Hr].
    apply not_true_iff_false in Hfresh. exfalso. apply Hfresh.
    apply existsb_exists. eauto.
  - intros other Hne. apply find_app_other. simpl.
    rewrite bool_decide_eq_false_2 by congruence. reflexivity.
Qed.

Lemma create_invitation_code_then_lookup_witness :
  get_invitation_code db_zero_code "bullABCD1234"
  = Some {| ic_id := 1; ic_code := "bullABCD1234"; ic_family_name := "bull";
            ic_created_by_user_id := 1; ic_created_at := 3000000; ic_expires_at := None;
            ic_max_uses := Some 0; ic_current_uses := 0; ic_is_active := true;
            ic_description := None |}.
Proof.
  assert (Hrun : create_invitation_code PyStr.ascii 1 "bull" None (Some 0) None
                   "ABCD1234" 3000000
                   (after (create_user "b@x.com" (Some "google-bob") (Some "Bob") None
                             2000000) db_ann)
                 = (Ok "bullABCD1234", db_zero_code)) by reflexivity.
  destruct (create_invitation_code_then_lookup _ _ _ _ _ _ _ _ _ _ _ Hrun)
    as (_ & _ & (inv & Hget & _) & _).
  rewrite Hget. vm_compute in Hget. injection Hget as <-. reflexivity.
Defined.

(** One redemption of a live code that is neither expired nor exhausted,
    by an existing user. *)
Lemma use_invitation_code_accepts (db : database) (code : string)
    (invitation : FamilyInvitationCode) (user_id : Z) (now : datetime) :
  get_invitation_code db code = Some invitation ->
  is_expired invitation now = false ->
  max_uses_exceeded invitation = false ->
  user_exists db user_id = true ->
  exists access,
    use_invitation_code code user_id now db
    = (Ok true,
       {| users := users db;
          family_access := family_access db ++ [access];
          user_consent := user_consent db;
          family_invitation_codes :=
            map (fun r => if ic_id r =? ic_id invitation
                          then set_current_uses (ic_current_uses invitation + 1) r
                          else r)
                (family_invitation_codes db) |})
    /\ fa_user_id access = user_id
    /\ fa_family_name access = ic_family_name invitation
    /\ fa_granted_by access = "invitation_" +:+ code
    /\ fa_is_active access = true.
Proof.
  intros Hget Hexp Hmax Huser.
  unfold use_invitation_code. rewrite Hget, Hexp, Hmax.
  unfold bind, grant_family_access. rewrite Huser. simpl.
  eexists. split; [reflexivity|]. repeat split.
Qed.

Lemma get_invitation_code_after_use (db : database) (code : string)
    (invitation : FamilyInvitationCode) (n : Z) (fa : list FamilyAccess) :
  get_invitation_code db code = Some invitation ->
  get_invitation_code
    {| users := users db;
       family_access := fa;
       user_consent := user_consent db;
       family_invitation_codes :=
         map (fun r => if ic_id r =? ic_id invitation then set_current_uses n r else r)
             (family_invitation_codes db) |} code
  = Some (set_current_uses n invitation).
Proof.
  intros Hget. unfold get_invitation_code in *. simpl.
  rewrite find_map_preserve.
  - rewrite Hget. simpl. rewrite Z.eqb_refl. reflexivity.
  - intros r. destruct (ic_id r =? ic_id invitation); reflexivity.
Qed.

(** X15. A redemption that goes through grants the code's family to the
    redeeming user and to nobody else, counts one more use on the code, and
    names the code as the origin of the grant. *)
Theorem redemption_grants_family (db : database) (code : string)
    (invitation : FamilyInvitationCode) (user_id : Z) (now : datetime) :
  get_invitation_code db code = Some invitation ->
  is_expired invitation now = false ->
  max_uses_exceeded invitation = false ->
  user_exists db user_id = true ->
  exists db',
    use_invitation_code code user_id now db = (Ok true, db')
    /\ get_user_families db' user_id
       = (get_user_families db user_id ++ [ic_family_name invitation])%list
    /\ (forall other, other <> user_id ->
          get_user_families db' other = get_user_families db other)
    /\ get_invitation_code db' code
       = Some (set_current_uses (ic_current_uses invitation + 1) invitation)
    /\ (exists access, last (family_access db') = Some access
                       /\ fa_granted_by access = "invitation_" +:+ code)
    /\ users db' = users db
    /\ user_consent db' = user_consent db.
Proof.
  intros Hget Hexp Hmax Huser.
  destruct (use_invitation_code_accepts db code invitation user_id now
              Hget Hexp Hmax Huser) as (access & Hrun & Hu & Hf & Hg & Ha).
  eexists. split; [exact Hrun|].
  split; [|split; [|split; [|split; [|split; reflexivity]]]].
  - unfold get_user_families. simpl. rewrite filter_app, map_app. f_equal.
    rewrite filter_cons, filter_nil. case_decide; [simpl; congruence | tauto].
  - intros other Hne. unfold get_user_families. simpl.
    rewrite filter_app, map_app, filter_cons, filter_nil.
    case_decide; [exfalso; intuition congruence|]. apply app_nil_r.
  - apply get_invitation_code_after_use. exact Hget.
  - exists access. simpl. rewrite last_snoc. auto.
Qed.

Lemma redemption_grants_family_witness :
  exists db',
    use_invitation_code "bullABCD1234" 2 4000000 db_zero_code = (Ok true, db')
    /\ get_user_families db' 2 = ["bull"].
Proof.
  destruct (redemption_grants_family db_zero_code "bullABCD1234" _ 2 4000000
              eq_refl eq_refl eq_refl eq_refl) as (db' & Hrun & Hfam & _).
  exists db'. split; [exact Hrun | exact Hfam].
Defined.

(** X16. A non-zero [max_uses] bounds the redemptions: of any sequence of
    redemptions of a live code by existing users before its expiry, exactly
    the first [max_uses - current_uses] succeed and all the later ones are
    refused. *)
Theorem redemptions_bounded (code : string) (attempts : list (Z * datetime))
    (db : database) (invitation : FamilyInvitationCode) (max_uses : Z) :
  get_invitation_code db code = Some invitation ->
  ic_max_uses invitation = Some max_uses ->
  max_uses <> 0 ->
  (forall user_id now, (user_id, now) ∈ attempts ->
     user_exists db user_id = true /\ is_expired invitation now = false) ->
  let left := Z.to_nat (max_uses - ic_current_uses invitation) in
  fst (redeem_all code attempts db)
  = (replicate (Nat.min left (length attempts)) (Ok true)
     ++ replicate (length attempts - left) (Ok false))%list.
Proof.
  revert db invitation.
  induction attempts as [|[uid now] rest IH]; intros db inv Hget Hmax Hne Hall left.
  - simpl. rewrite Nat.min_0_r. reflexivity.
  - destruct (Hall uid now (list_elem_of_here _ _)) as [Hu He].
    assert (Hrest : forall u t, (u, t) ∈ rest ->
                      user_exists db u = true /\ is_expired inv t = false).
    { intros u t Hin. apply Hall. apply list_elem_of_further. exact Hin. }
    cbn [redeem_all].
    destruct (Z.le_gt_cases max_uses (ic_current_uses inv)) as [Hfull | Hroom].
    + assert (Hrun : use_invitation_code code uid now db = (Ok false, db)).
      { unfold use_invitation_code. rewrite Hget, He.
        unfold max_uses_exceeded. rewrite Hmax.
        destruct (Z.eqb_spec max_uses 0); [contradiction|].
        destruct (Z.leb_spec max_uses (ic_current_uses inv)); [reflexivity | lia]. }
      rewrite Hrun. specialize (IH db inv Hget Hmax Hne Hrest).
      destruct (redeem_all code rest db) as [rs db'']. simpl in *.
      rewrite IH. subst left.
      replace (Z.to_nat (max_uses - ic_current_uses inv)) with 0%nat by lia.
      simpl. rewrite Nat.sub_0_r. reflexivity.
    + assert (Hok : max_uses_exceeded inv = false).
      { unfold max_uses_exceeded. rewrite Hmax.
        destruct (Z.eqb_spec max_uses 0); [contradiction|].
        destruct (Z.leb_spec max_uses (ic_current_uses inv)); [lia | reflexivity]. }
      destruct (use_invitation_code_accepts db code inv uid now Hget He Hok Hu)
        as (access & Hrun & _).
      rewrite Hrun.
      match type of Hrun with _ = (_, ?d) => set (db1 := d) in * end.
      assert (Hget1 : get_invitation_code db1 code
                      = Some (set_current_uses (ic_current_uses inv + 1) inv))
        by (apply get_invitation_code_after_use; exact Hget).
      specialize (IH db1 _ Hget1 Hmax Hne Hrest).
      destruct (redeem_all code rest db1) as [rs db'']. simpl in *.
      rewrite IH. subst left.
      replace (Z.to_nat (max_uses - ic_current_uses inv))
        with (S (Z.to_nat (max_uses - (ic_current_uses inv + 1)))) by lia.
      reflexivity.
Qed.

Lemma redemptions_bounded_witness :
  fst (redeem_all "bullWXYZ5678" [(2, 5000000); (1, 6000000); (2, 7000000)] db_two_uses)
  = [Ok true; Ok true; Ok false].
Proof.
  refine (redemptions_bounded "bullWXYZ5678" [(2, 5000000); (1, 6000000); (2, 7000000)]
            db_two_uses _ 2 eq_refl eq_refl _ _).
  - discriminate.
  - intros u t Hin.
    repeat (apply elem_of_cons in Hin as [[= -> ->]|Hin]; [split; reflexivity|]).
    apply elem_of_nil in Hin. contradiction.
Defined.

(** ** Sessions and magic tokens of the examples *)

Lemma magic_token_verifies (email family_name : string) (user_id : Z)
    (now later : datetime) :
  now <= later ->
  later < fromtimestamp (timegm (now + timedelta_minutes 30)) ->
  exists payload,
    verify_verification_token example_auth
      (magic_token email family_name (Some user_id) now) later = Ok (Some payload)
    /\ payload !! "email" = Some (PStr email)
    /\ payload !! "family_name" = Some (PStr family_name).
Proof.
  intros Hle Hlt.
  destruct (create_verification_token_claims example_auth email family_name
              (Some user_id) now) as (claims & Hc & He & Hf & Ht & Hi & Hx & Hn & _ & Ha).
  unfold magic_token. rewrite Hc. exists claims. split; [|split; assumption].
  unfold verify_verification_token.
  rewrite (decode_issued claims _ _ _ later Hi Hn Hx Ha); [| |exact Hlt].
  - unfold get. rewrite Ht. reflexivity.
  - pose proof (fromtimestamp_timegm_le now). lia.
Qed.

Lemma session_cookie_authenticates (user_id : Z) (email : string) (families : list string)
    (issued now : datetime) :
  issued <= now ->
  now < fromtimestamp (timegm (issued + timedelta_hours 24)) ->
  exists payload,
    get_current_user example_auth (session_cookie user_id email families issued) now
    = Ok (Some payload)
    /\ payload !! "email" = Some (PStr email).
Proof.
  intros Hle Hlt.
  destruct (create_jwt_token_claims example_auth user_id email families 24 issued)
    as (claims & Hc & Hu & He & _ & Hi & Hx & Hn & _ & Ha).
  unfold session_cookie. rewrite Hc. exists claims. split; [|exact He].
  unfold get_current_user.
  rewrite (verify_jwt_token_issued example_auth claims _ _ now Hi Hn Hx Ha);
    [| pose proof (fromtimestamp_timegm_le issued); lia | exact Hlt].
  simpl. rewrite bool_decide_eq_false_2; [reflexivity|].
  intros ->. rewrite lookup_empty in Hu. discriminate Hu.
Qed.

(** ** Magic-link login and email verification *)

Lemma timegm_window (t d : Z) :
  microseconds_per_second <= d -> t < fromtimestamp (timegm (t + d)).
Proof.
  unfold fromtimestamp, timegm, microseconds_per_second. intros Hd.
  pose proof (Z.div_mod (t + d) 1000000 ltac:(lia)) as Hdm.
  pose proof (Z.mod_pos_bound (t + d) 1000000 ltac:(lia)) as Hb. lia.
Qed.

Lemma get_user_by_email_stamped (db : database) (email : string) (user : User)
    (now : datetime) (fa : list FamilyAccess) :
  get_user_by_email db email = Some user ->
  get_user_by_email
    {| users := map (fun u => if u_id u =? u_id user then stamp_login now u else u)
                    (users db);
       family_access := fa;
       user_consent := user_consent db;
       family_invitation_codes := family_invitation_codes db |} email
  = Some (stamp_login now user).
Proof.
  intros Hget. unfold get_user_by_email in *. simpl.
  rewrite find_map_preserve.
  - rewrite Hget. simpl. rewrite Z.eqb_refl. reflexivity.
  - intros u. destruct (u_id u =? u_id user); reflexivity.
Qed.

Lemma get_user_families_snoc (db db' : database) (access : FamilyAccess) (user_id : Z) :
  family_access db' = (family_access db ++ [access])%list ->
  fa_user_id access = user_id ->
  fa_is_active access = true ->
  get_user_families db' user_id
  = (get_user_families db user_id ++ [fa_family_name access])%list.
Proof.
  intros Hfa Hu Ha. unfold get_user_families. rewrite Hfa, filter_app, map_app. f_equal.
  rewrite filter_cons, filter_nil.
  destruct (decide (fa_user_id access = user_id /\ fa_is_active access = true));
    [reflexivity | tauto].
Qed.

(** What a magic-link login with a verified token of an existing user
    answers and leaves in the store. *)
Lemma magic_login_outcome (ga : GoogleAuthService) (token : jwt.token)
    (now : datetime) (db : database) (payload : gmap string pyval)
    (email family_name : string) (user : User) :
  verify_verification_token ga token now = Ok (Some payload) ->
  payload !! "email" = Some (PStr email) ->
  payload !! "family_name" = Some (PStr family_name) ->
  get_user_by_email db email = Some user ->
  let held := bool_decide (family_name ∈ get_user_families db (u_id user)) in
  let families := if held then get_user_families db (u_id user)
                  else (get_user_families db (u_id user) ++ [family_name])%list in
  exists session access,
    magic_login ga token now db
    = (Ok (RedirectResponse (family_page family_name) (Some session)),
       {| users := map (fun u => if u_id u =? u_id user then stamp_login now u else u)
                       (users db);
          family_access := if held then family_access db
                           else family_access db ++ [access];
          user_consent := user_consent db;
          family_invitation_codes := family_invitation_codes db |})
    /\ create_jwt_token ga (u_id user) email (Some families) 24 now = Ok session
    /\ fa_user_id access = u_id user
    /\ fa_family_name access = family_name
    /\ fa_granted_by access = "magic_link"
    /\ fa_is_active access = true.
Proof.
  intros Hv He Hf Hu held families.
  pose proof (get_user_by_email_exists db email user Hu) as Hex.
  destruct (create_jwt_token_ok ga (u_id user) email families 24 now) as [t Ht].
  exists t, {| fa_id := next_id (map fa_id (family_access db));
               fa_user_id := u_id user;
               fa_family_name := family_name;
               fa_granted_at := now;
               fa_granted_by := "magic_link";
               fa_is_active := true |}.
  split; [|repeat split; exact Ht].
  unfold magic_login, try_except, bind, lift, raise, ret, getitem.
  rewrite Hv, He. simpl. rewrite Hf. simpl. rewrite Hu.
  subst families held. case_bool_decide; simpl.
  - rewrite Ht. reflexivity.
  - unfold grant_family_access. rewrite Hex. simpl. rewrite Ht. reflexivity.
Qed.

(** X17. A magic-link login grants at most once: after a login with a
    verified token of an existing user the user holds the family of the
    link; if the user held it already no grant row is added, otherwise
    exactly one is; the user's row is stamped as verified and logged in at
    that instant; consents and codes are untouched. *)
Theorem magic_login_grants_once (ga : GoogleAuthService) (token : jwt.token)
    (now : datetime) (db : database) (payload : gmap string pyval)
    (email family_name : string) (user : User) :
  verify_verification_token ga token now = Ok (Some payload) ->
  payload !! "email" = Some (PStr email) ->
  payload !! "family_name" = Some (PStr family_name) ->
  get_user_by_email db email = Some user ->
  exists session db',
    magic_login ga token now db
    = (Ok (RedirectResponse (family_page family_name) (Some session)), db')
    /\ family_name ∈ get_user_families db' (u_id user)
    /\ (family_name ∈ get_user_families db (u_id user) ->
        family_access db' = family_access db)
    /\ (family_name ∉ get_user_families db (u_id user) ->
        get_user_families db' (u_id user)
        = (get_user_families db (u_id user) ++ [family_name])%list)
    /\ get_user_by_email db' email = Some (stamp_login now user)
    /\ user_consent db' = user_consent db
    /\ family_invitation_codes db' = family_invitation_codes db.
Proof.
  intros Hv He Hf Hu.
  destruct (magic_login_outcome ga token now db payload email family_name user
              Hv He Hf Hu) as (session & access & Hrun & _ & Ha1 & Ha2 & _ & Ha3).
  eexists _, _. split; [exact Hrun|].
  assert (Hnew : ~ family_name ∈ get_user_families db (u_id user) ->
            get_user_families
              {| users := map (fun u => if u_id u =? u_id user then stamp_login now u else u)
                              (users db);
                 family_access := family_access db ++ [access];
                 user_consent := user_consent db;
                 family_invitation_codes := family_invitation_codes db |} (u_id user)
            = (get_user_families db (u_id user) ++ [family_name])%list).
  { intros _. rewrite <- Ha2. apply get_user_families_snoc with (db := db); auto. }
  case_bool_decide as Hheld;
    (split; [|split; [|split; [|split; [|split; reflexivity]]]]).
  - exact Hheld.
  - reflexivity.
  - contradiction.
  - apply get_user_by_email_stamped. exact Hu.
  - rewrite (Hnew Hheld). apply elem_of_app. right. apply list_elem_of_singleton.
    reflexivity.
  - contradiction.
  - exact Hnew.
  - apply get_user_by_email_stamped. exact Hu.
Qed.

Lemma magic_login_grants_once_witness :
  exists session db',
    magic_login example_auth (magic_token "user@x.com" "jones" (Some 2) 2000000) 3000000
      db_ann_user
    = (Ok (RedirectResponse (family_page "jones") (Some session)), db')
    /\ "jones" ∈ get_user_families db' 2.
Proof.
  destruct (magic_token_verifies "user@x.com" "jones" 2 2000000 3000000
              ltac:(discriminate) ltac:(reflexivity)) as (payload & Hv & He & Hf).
  destruct (magic_login_grants_once example_auth _ 3000000 db_ann_user payload
              "user@x.com" "jones" user2 Hv He Hf eq_refl)
    as (session & db' & Hrun & Hin & _).
  exists session, db'. split; [exact Hrun | exact Hin].
Defined.

(** X18. The session that a magic-link login opens is the user's: for a
    day less a second from the login, [get_current_user] accepts the cookie
    it set and returns a payload with the user's id, the email of the link
    and, as families, exactly what [get_user_families] lists for the user
    after the login. *)
Theorem magic_login_session_authenticates (ga : GoogleAuthService) (token : jwt.token)
    (now later : datetime) (db : database) (payload : gmap string pyval)
    (email family_name : string) (user : User) :
  verify_verification_token ga token now = Ok (Some payload) ->
  payload !! "email" = Some (PStr email) ->
  payload !! "family_name" = Some (PStr family_name) ->
  get_user_by_email db email = Some user ->
  now <= later ->
  later <= now + timedelta_hours 24 - microseconds_per_second ->
  exists session db' claims,
    magic_login ga token now db
    = (Ok (RedirectResponse (family_page family_name) (Some session)), db')
    /\ get_current_user ga (Some session) later = Ok (Some claims)
    /\ claims !! "user_id" = Some (PInt (u_id user))
    /\ claims !! "email" = Some (PStr email)
    /\ claims !! "families" = Some (PList (get_user_families db' (u_id user))).
Proof.
  intros Hv He Hf Hu Hle Hlt.
  destruct (magic_login_outcome ga token now db payload email family_name user
              Hv He Hf Hu) as (session & access & Hrun & Hsess & Ha1 & Ha2 & _ & Ha3).
  revert Hrun Hsess.
  set (held := bool_decide (family_name ∈ get_user_families db (u_id user))).
  set (families := if held then get_user_families db (u_id user)
                   else (get_user_families db (u_id user) ++ [family_name])%list).
  intros Hrun Hsess.
  destruct (create_jwt_token_claims ga (u_id user) email families 24 now)
    as (claims & Hc & Hcu & Hcm & Hcf & Hci & Hce & Hcn & _ & Hca).
  rewrite Hsess in Hc. injection Hc as ->.
  eexists _, _, claims. split; [exact Hrun|].
  assert (Hver : verify_jwt_token ga (jwt.JWS claims (jwt_secret ga)) later
                 = Ok (Some claims)).
  { apply (verify_jwt_token_issued ga claims _ _ later Hci Hcn Hce Hca).
    - pose proof (fromtimestamp_timegm_le now). lia.
    - pose proof (timegm_window later (now + timedelta_hours 24 - later)) as Hw.
      replace (later + (now + timedelta_hours 24 - later))
        with (now + timedelta_hours 24) in Hw by lia.
      apply Hw. lia. }
  split.
  { unfold get_current_user. rewrite Hver. simpl.
    rewrite bool_decide_eq_false_2; [reflexivity|].
    intros ->. rewrite lookup_empty in Hcu. discriminate Hcu. }
  split; [exact Hcu|]. split; [exact Hcm|].
  rewrite Hcf. do 2 f_equal. subst families held.
  case_bool_decide as Hheld; [reflexivity|].
  symmetry. rewrite <- Ha2. apply get_user_families_snoc with (db := db); auto.
Qed.

Lemma magic_login_session_authenticates_witness :
  exists session db' claims,
    magic_login example_auth (magic_token "user@x.com" "jones" (Some 2) 2000000) 3000000
      db_ann_user
    = (Ok (RedirectResponse (family_page "jones") (Some session)), db')
    /\ get_current_user example_auth (Some session) 80000000000 = Ok (Some claims)
    /\ claims !! "user_id" = Some (PInt 2)
    /\ claims !! "email" = Some (PStr "user@x.com")
    /\ claims !! "families" = Some (PList (get_user_families db' 2)).
Proof.
  destruct (magic_token_verifies "user@x.com" "jones" 2 2000000 3000000
              ltac:(discriminate) ltac:(reflexivity)) as (payload & Hv & He & Hf).
  exact (magic_login_session_authenticates example_auth _ 3000000 80000000000
           db_ann_user payload "user@x.com" "jones" user2 Hv He Hf eq_refl
           ltac:(discriminate) ltac:(discriminate)).
Defined.

(** X19. Email verification grants every time: a verification with a
    verified token of an existing user adds one grant row for the family of
    the token whether or not the user holds it already, so the family is
    listed once more than before; the answer is a redirect to the family's
    address with a session cookie. *)
Theorem verify_email_always_grants (ga : GoogleAuthService) (token : jwt.token)
    (now : datetime) (db : database) (payload : gmap string pyval)
    (email family_name : string) (user : User) :
  verify_verification_token ga token now = Ok (Some payload) ->
  payload !! "email" = Some (PStr email) ->
  payload !! "family_name" = Some (PStr family_name) ->
  get_user_by_email db email = Some user ->
  exists session db' access,
    verify_email ga token now db
    = (Ok (RedirectResponse ("https://family.futurelink.zip/" +:+ family_name)
             (Some session)), db')
    /\ family_access db' = (family_access db ++ [access])%list
    /\ fa_granted_by access = "email_verification"
    /\ get_user_families db' (u_id user)
       = (get_user_families db (u_id user) ++ [family_name])%list
    /\ get_user_by_email db' email = Some (stamp_login now user).
Proof.
  intros Hv He Hf Hu.
  pose proof (get_user_by_email_exists db email user Hu) as Hex.
  set (access := {| fa_id := next_id (map fa_id (family_access db));
                    fa_user_id := u_id user;
                    fa_family_name := family_name;
                    fa_granted_at := now;
                    fa_granted_by := "email_verification";
                    fa_is_active := true |}).
  set (db1 := {| users := users db;
                 family_access := family_access db ++ [access];
                 user_consent := user_consent db;
                 family_invitation_codes := family_invitation_codes db |}).
  destruct (create_jwt_token_ok ga (u_id user) email
              (get_user_families db1 (u_id user)) 24 now) as [t Ht].
  exists t,
    {| users := map (fun u => if u_id u =? u_id user then stamp_login now u else u)
                    (users db);
       family_access := family_access db ++ [access];
       user_consent := user_consent db;
       family_invitation_codes := family_invitation_codes db |}, access.
  split; [|split; [reflexivity|split; [reflexivity|split]]].
  - unfold verify_email, try_except, bind, lift, raise, ret, getitem.
    rewrite Hv, He. simpl. rewrite Hf. simpl. rewrite Hu.
    unfold grant_family_access. rewrite Hex. simpl.
    fold access. fold db1. rewrite Ht. reflexivity.
  - apply (get_user_families_snoc db _ access); reflexivity.
  - apply get_user_by_email_stamped. exact Hu.
Qed.

Lemma verify_email_always_grants_witness :
  exists session db' access,
    verify_email example_auth (magic_token "user@x.com" "jones" (Some 2) 2000000) 3000000
      db_ann_user
    = (Ok (RedirectResponse ("https://family.futurelink.zip/" +:+ "jones")
             (Some session)), db')
    /\ family_access db' = (family_access db_ann_user ++ [access])%list
    /\ fa_granted_by access = "email_verification"
    /\ get_user_families db' 2 = (get_user_families db_ann_user 2 ++ ["jones"])%list
    /\ get_user_by_email db' "user@x.com" = Some (stamp_login 3000000 user2).
Proof.
  destruct (magic_token_verifies "user@x.com" "jones" 2 2000000 3000000
              ltac:(discriminate) ltac:(reflexivity)) as (payload & Hv & He & Hf).
  exact (verify_email_always_grants example_auth _ 3000000 db_ann_user payload
           "user@x.com" "jones" user2 Hv He Hf eq_refl).
Defined.

(** X20. Email verification fails hard: when the token fails verification,
    or names an email that no user row has, [verify_email] raises a 500 that
    wraps the error (where [magic_login] redirects), and the store is left
    as it was. *)
Theorem verify_email_hard_failure (ga : GoogleAuthService) (token : jwt.token)
    (now : datetime) (db : database) :
  (forall payload, verify_verification_token ga token now <> Ok (Some payload))
  \/ (exists payload email,
        verify_verification_token ga token now = Ok (Some payload)
        /\ payload !! "email" = Some (PStr email)
        /\ get_user_by_email db email = None) ->
  exists e, verify_email ga token now db = (Raise (HTTPException 500 (StrOf e)), db).
Proof.
  intros H. unfold verify_email, try_except, bind, lift, raise, ret.
  destruct (verify_verification_token ga token now) as [[payload|]|e] eqn:Hv;
    simpl; eauto.
  destruct H as [H | (p & email & [= <-] & Hemail & Huser)].
  { exfalso. exact (H payload eq_refl). }
  unfold getitem. rewrite Hemail. simpl.
  destruct (payload !! "family_name") as [[]|]; simpl; eauto.
  rewrite Huser. eauto.
Qed.

Lemma verify_email_hard_failure_witness :
  exists e, verify_email example_auth backdated_token 2000000 db_ann
            = (Raise (HTTPException 500 (StrOf e)), db_ann).
Proof.
  apply (verify_email_hard_failure example_auth backdated_token 2000000 db_ann).
  left. intros payload H. vm_compute in H. discriminate H.
Defined.

(** ** The current user *)

(** X21. [GET /me] reads the families from the store, not from the
    session: with a session token issued before a grant, whatever families
    that token carries, the answer after the grant lists the user's earlier
    families followed by the new one, and the store is not written. *)
Theorem me_lists_families_of_the_store (ga : GoogleAuthService) (email : string)
    (token_user_id : Z) (token_families : list string) (issued granted asked : datetime)
    (db db' : database) (user : User) (family_name granted_by : string)
    (access : FamilyAccess) :
  get_user_by_email db email = Some user ->
  grant_family_access (u_id user) family_name granted_by granted db = (Ok access, db') ->
  issued <= asked ->
  asked < fromtimestamp (timegm (issued + timedelta_hours 24)) ->
  exists token answer,
    create_jwt_token ga token_user_id email (Some token_families) 24 issued = Ok token
    /\ get_current_user_info ga (Some token) asked db' = (Ok answer, db')
    /\ me_id answer = u_id user
    /\ me_email answer = email
    /\ me_families answer
       = (get_user_families db (u_id user) ++ [family_name])%list.
Proof.
  intros Hu Hgrant Hle Hlt.
  destruct (create_jwt_token_claims ga token_user_id email token_families 24 issued)
    as (claims & Hc & Hcu & Hcm & _ & Hci & Hce & Hcn & _ & Hca).
  assert (Hver : verify_jwt_token ga (jwt.JWS claims (jwt_secret ga)) asked
                 = Ok (Some claims)).
  { apply (verify_jwt_token_issued ga claims _ _ asked Hci Hcn Hce Hca); [|exact Hlt].
    pose proof (fromtimestamp_timegm_le issued). lia. }
  assert (Hcur : get_current_user ga (Some (jwt.JWS claims (jwt_secret ga))) asked
                 = Ok (Some claims)).
  { unfold get_current_user. rewrite Hver. simpl.
    rewrite bool_decide_eq_false_2; [reflexivity|].
    intros ->. rewrite lookup_empty in Hcu. discriminate Hcu. }
  revert Hgrant. unfold grant_family_access.
  destruct (user_exists db (u_id user)); [|discriminate].
  intros [= <- <-].
  assert (Hu' : get_user_by_email
                  {| users := users db;
                     family_access :=
                       family_access db
                       ++ [{| fa_id := next_id (map fa_id (family_access db));
                              fa_user_id := u_id user;
                              fa_family_name := family_name;
                              fa_granted_at := granted;
                              fa_granted_by := granted_by;
                              fa_is_active := true |}];
                     user_consent := user_consent db;
                     family_invitation_codes := family_invitation_codes db |} email
                = Some user) by exact Hu.
  eexists _, _. split; [exact Hc|].
  unfold get_current_user_info, bind, lift, getitem.
  rewrite Hcur. simpl. rewrite Hcm. simpl. rewrite Hu'.
  split; [reflexivity|]. simpl.
  split; [reflexivity|]. split.
  - unfold get_user_by_email in Hu. apply find_some in Hu as [_ Hm].
    apply bool_decide_eq_true_1 in Hm. exact Hm.
  - rewrite get_user_families_grant. simpl.
    rewrite bool_decide_eq_true_2 by auto. reflexivity.
Qed.

Lemma me_lists_families_of_the_store_witness :
  exists token answer,
    create_jwt_token example_auth 1 "a@x.com" (Some []) 24 1500000 = Ok token
    /\ get_current_user_info example_auth (Some token) 5000000
         (after (grant_family_access 1 "north" "admin" 2000000) db_ann)
       = (Ok answer, after (grant_family_access 1 "north" "admin" 2000000) db_ann)
    /\ me_id answer = 1
    /\ me_email answer = "a@x.com"
    /\ me_families answer = ["north"].
Proof.
  exact (me_lists_families_of_the_store example_auth "a@x.com" 1 [] 1500000 2000000
           5000000 db_ann _ ann "north" "admin" _ eq_refl (surjective_pairing _)
           ltac:(discriminate) ltac:(reflexivity)).
Defined.

(** ** Creating and joining a family *)

(** X22. Create-family for a signed-in, registered user: when the name,
    lowered and stripped by Python's [lower] and [strip], is not empty and
    at least two long by Python's [len], and the code drawn is not in use,
    the flow answers with that name and with the code made of the name,
    lowered once more, followed by the random part; the creator then holds
    the family, and the code is live, unused, without limit and without
    expiry. The outcome of the mail does not change what is stored. *)
Theorem create_family_outcome (ga : GoogleAuthService) (py : PyStr.t)
    (authorization : option jwt.token) (request_family_name : string)
    (request_description : option string) (random_part : string) (email_success : bool)
    (now : datetime) (db : database) (payload : gmap string pyval) (email : string)
    (creator : User) :
  let family_name := PyStr.strip py (PyStr.lower py request_family_name) in
  let code := PyStr.lower py family_name +:+ random_part in
  get_current_user ga authorization now = Ok (Some payload) ->
  payload !! "email" = Some (PStr email) ->
  get_user_by_email db email = Some creator ->
  family_name <> "" ->
  (2 <= PyStr.len py family_name)%nat ->
  (forall r, r ∈ family_invitation_codes db -> ic_code r <> code) ->
  exists db' invitation,
    create_family_code ga py authorization request_family_name request_description
      random_part email_success now db
    = (Ok (FamilyCreated family_name code email_success), db')
    /\ get_user_families db' (u_id creator)
       = (get_user_families db (u_id creator) ++ [family_name])%list
    /\ get_invitation_code db' code = Some invitation
    /\ ic_family_name invitation = family_name
    /\ ic_created_by_user_id invitation = u_id creator
    /\ ic_max_uses invitation = None
    /\ ic_expires_at invitation = None
    /\ ic_current_uses invitation = 0
    /\ db' = after (create_family_code ga py authorization request_family_name
                      request_description random_part (negb email_success) now) db.
Proof.
  intros family_name code Hauth Hemail Huser Hne Hlen Hfresh.
  pose proof (get_user_by_email_exists db email creator Huser) as Hex.
  assert (Hdup : existsb (fun r => bool_decide (ic_code r = code))
                   (family_invitation_codes db) = false).
  { apply not_true_is_false. intros H. apply existsb_exists in H as (r & Hin & Hr).
    apply bool_decide_eq_true_1 in Hr. apply (Hfresh r); [apply list_elem_of_In|];
      assumption. }
  assert (Hact : existsb (fun r => bool_decide (ic_code r = code) && ic_is_active r)
                   (family_invitation_codes db) = false).
  { apply not_true_is_false. intros H. apply existsb_exists in H as (r & Hin & Hr).
    apply andb_true_iff in Hr as [Hr _]. apply bool_decide_eq_true_1 in Hr.
    apply (Hfresh r); [apply list_elem_of_In|]; assumption. }
  destruct (create_verification_token_ok ga email family_name (Some (u_id creator)) now)
    as [t Ht].
  assert (Hrun : forall flag,
            create_family_code ga py authorization request_family_name request_description
              random_part flag now db
            = (Ok (FamilyCreated family_name code flag),
               {| users := users db;
                  family_access :=
                    family_access db
                    ++ [{| fa_id := next_id (map fa_id (family_access db));
                           fa_user_id := u_id creator;
                           fa_family_name := family_name;
                           fa_granted_at := now;
                           fa_granted_by := "family_creator";
                           fa_is_active := true |}];
                  user_consent := user_consent db;
                  family_invitation_codes :=
                    family_invitation_codes db
                    ++ [{| ic_id := next_id (map ic_id (family_invitation_codes db));
                           ic_code := code;
                           ic_family_name := family_name;
                           ic_created_by_user_id := u_id creator;
                           ic_created_at := now;
                           ic_expires_at := None;
                           ic_max_uses := None;
                           ic_current_uses := 0;
                           ic_is_active := true;
                           ic_description :=
                             Some match request_description with
                                  | Some d =>
                                      if String.eqb d ""
                                      then PyStr.title py family_name +:+ " Family"
                                      else d
                                  | None => PyStr.title py family_name +:+ " Family"
                                  end |}] |})).
  { intros flag.
    unfold create_family_code, bind, lift, raise, ret, getitem.
    rewrite Hauth. simpl. fold family_name.
    destruct (String.eqb_spec family_name "") as [Hnil|_]; [contradiction|].
    destruct (Nat.ltb_spec (PyStr.len py family_name) 2); [lia|]. simpl.
    rewrite Hemail. simpl. rewrite Huser.
    unfold create_invitation_code. fold code. rewrite Hex, Hdup. simpl.
    unfold grant_family_access, user_exists in *. simpl. rewrite Hex. simpl.
    rewrite Ht. reflexivity. }
  eexists _, _. split; [apply Hrun|].
  split.
  { unfold get_user_families. simpl. rewrite filter_app, map_app, filter_cons, filter_nil.
    destruct (decide _) as [_|Hn]; [reflexivity | simpl in Hn; tauto]. }
  split.
  { unfold get_invitation_code. simpl. rewrite find_app_last by exact Hact. simpl.
    rewrite bool_decide_eq_true_2 by reflexivity. reflexivity. }
  repeat split. unfold after. rewrite Hrun. reflexivity.
Qed.

Lemma create_family_outcome_witness :
  exists db' invitation,
    create_family_code example_auth PyStr.ascii (session_cookie 1 "a@x.com" [] 1500000)
      " Smith " None "ABCD1234" true 2000000 db_ann
    = (Ok (FamilyCreated "smith" "smithABCD1234" true), db')
    /\ get_user_families db' 1 = ["smith"]
    /\ get_invitation_code db' "smithABCD1234" = Some invitation
    /\ ic_max_uses invitation = None
    /\ ic_expires_at invitation = None.
Proof.
  destruct (session_cookie_authenticates 1 "a@x.com" [] 1500000 2000000
              ltac:(discriminate) ltac:(reflexivity)) as (payload & Hauth & He).
  destruct (create_family_outcome example_auth PyStr.ascii _ " Smith " None "ABCD1234"
              true 2000000 db_ann payload "a@x.com" ann Hauth He eq_refl
              ltac:(discriminate) ltac:(vm_compute; lia)
              ltac:(intros r Hr; inversion Hr))
    as (db' & inv & Hrun & Hfam & Hget & _ & _ & Hmax & Hexp & _).
  exists db', inv. auto.
Defined.

(** What join-family does for a signed-in, registered user with a live
    code that is neither expired nor exhausted. *)
Lemma join_family_run (ga : GoogleAuthService) (authorization : option jwt.token)
    (code : string) (now : datetime) (db : database) (payload : gmap string pyval)
    (email : string) (joiner : User) (invitation : FamilyInvitationCode) :
  get_current_user ga authorization now = Ok (Some payload) ->
  payload !! "email" = Some (PStr email) ->
  get_user_by_email db email = Some joiner ->
  get_invitation_code db code = Some invitation ->
  is_expired invitation now = false ->
  max_uses_exceeded invitation = false ->
  exists magic access,
    join_family_with_code ga authorization code now db
    = (Ok (FamilyJoined (ic_family_name invitation) code magic),
       {| users := users db;
          family_access := family_access db ++ [access];
          user_consent := user_consent db;
          family_invitation_codes :=
            map (fun r => if ic_id r =? ic_id invitation
                          then set_current_uses (ic_current_uses invitation + 1) r
                          else r)
                (family_invitation_codes db) |})
    /\ create_verification_token ga email (ic_family_name invitation)
         (Some (u_id joiner)) now = Ok magic
    /\ fa_user_id access = u_id joiner
    /\ fa_family_name access = ic_family_name invitation
    /\ fa_is_active access = true.
Proof.
  intros Hauth Hemail Huser Hget Hexp Hmax.
  pose proof (get_user_by_email_exists db email joiner Huser) as Hex.
  destruct (use_invitation_code_accepts db code invitation (u_id joiner) now
              Hget Hexp Hmax Hex) as (access & Hrun & Ha1 & Ha2 & _ & Ha3).
  destruct (create_verification_token_ok ga email (ic_family_name invitation)
              (Some (u_id joiner)) now) as [magic Hmagic].
  exists magic, access. split; [|auto].
  unfold join_family_with_code, bind, lift, raise, ret, getitem.
  rewrite Hauth. simpl. rewrite Hemail. simpl. rewrite Huser, Hrun. simpl.
  rewrite (get_invitation_code_after_use db code invitation _ _ Hget). simpl.
  rewrite Hmagic. reflexivity.
Qed.

(** X23. Join-family with a live code: a signed-in, registered user who
    presents a code that is neither expired nor exhausted is answered with
    the code's family and a magic token issued for the user's email and that
    family; the user then holds the family, and the code has one more use. *)
Theorem join_family_accepts (ga : GoogleAuthService) (authorization : option jwt.token)
    (code : string) (now : datetime) (db : database) (payload : gmap string pyval)
    (email : string) (joiner : User) (invitation : FamilyInvitationCode) :
  get_current_user ga authorization now = Ok (Some payload) ->
  payload !! "email" = Some (PStr email) ->
  get_user_by_email db email = Some joiner ->
  get_invitation_code db code = Some invitation ->
  is_expired invitation now = false ->
  max_uses_exceeded invitation = false ->
  exists magic db',
    join_family_with_code ga authorization code now db
    = (Ok (FamilyJoined (ic_family_name invitation) code magic), db')
    /\ create_verification_token ga email (ic_family_name invitation)
         (Some (u_id joiner)) now = Ok magic
    /\ get_user_families db' (u_id joiner)
       = (get_user_families db (u_id joiner) ++ [ic_family_name invitation])%list
    /\ get_invitation_code db' code
       = Some (set_current_uses (ic_current_uses invitation + 1) invitation)
    /\ users db' = users db.
Proof.
  intros Hauth Hemail Huser Hget Hexp Hmax.
  destruct (join_family_run ga authorization code now db payload email joiner invitation
              Hauth Hemail Huser Hget Hexp Hmax)
    as (magic & access & Hrun & Hmagic & Ha1 & Ha2 & Ha3).
  eexists magic, _. split; [exact Hrun|]. split; [exact Hmagic|].
  split; [|split; [|reflexivity]].
  - rewrite <- Ha2. apply (get_user_families_snoc db); auto.
  - apply get_invitation_code_after_use. exact Hget.
Qed.

(** X24. The magic token that join-family hands out logs the joiner in:
    presented to [magic_login] within the half hour after the join, it is
    answered with the redirect to the joined family's page and a session
    cookie, and no second grant row is added. *)
Theorem joined_magic_link_logs_in (ga : GoogleAuthService)
    (authorization : option jwt.token) (code : string) (now later : datetime)
    (db : database) (payload : gmap string pyval) (email : string) (joiner : User)
    (invitation : FamilyInvitationCode) :
  get_current_user ga authorization now = Ok (Some payload) ->
  payload !! "email" = Some (PStr email) ->
  get_user_by_email db email = Some joiner ->
  get_invitation_code db code = Some invitation ->
  is_expired invitation now = false ->
  max_uses_exceeded invitation = false ->
  now <= later ->
  later < fromtimestamp (timegm (now + timedelta_minutes 30)) ->
  exists magic db' session db'',
    join_family_with_code ga authorization code now db
    = (Ok (FamilyJoined (ic_family_name invitation) code magic), db')
    /\ magic_login ga magic later db'
       = (Ok (RedirectResponse (family_page (ic_family_name invitation)) (Some session)),
          db'')
    /\ family_access db'' = family_access db'.
Proof.
  intros Hauth Hemail Huser Hget Hexp Hmax Hle Hlt.
  destruct (join_family_run ga authorization code now db payload email joiner invitation
              Hauth Hemail Huser Hget Hexp Hmax)
    as (magic & access & Hrun & Hmagic & Ha1 & Ha2 & Ha3).
  destruct (create_verification_token_claims ga email (ic_family_name invitation)
              (Some (u_id joiner)) now) as (claims & Hc & He & Hf & Ht & Hi & Hx & Hn & _ & Ha).
  rewrite Hmagic in Hc. injection Hc as ->.
  assert (Hv : verify_verification_token ga (jwt.JWS claims (jwt_secret ga)) later
               = Ok (Some claims)).
  { unfold verify_verification_token.
    rewrite (decode_issued claims _ _ _ later Hi Hn Hx Ha); [| |exact Hlt].
    - unfold get. rewrite Ht. reflexivity.
    - pose proof (fromtimestamp_timegm_le now). lia. }
  match type of Hrun with _ = (_, ?d) => set (db' := d) in * end.
  assert (Huser' : get_user_by_email db' email = Some joiner) by exact Huser.
  assert (Hheld : ic_family_name invitation ∈ get_user_families db' (u_id joiner)).
  { rewrite <- Ha2.
    rewrite (get_user_families_snoc db db' access (u_id joiner) eq_refl Ha1 Ha3).
    apply elem_of_app. right. apply list_elem_of_singleton. reflexivity. }
  destruct (magic_login_outcome ga _ later db' claims email (ic_family_name invitation)
              joiner Hv He Hf Huser') as (session & grant & Hlogin & _).
  rewrite (bool_decide_eq_true_2 _ Hheld) in Hlogin.
  eexists _, db', session, _. split; [exact Hrun|]. split; [exact Hlogin|].
  reflexivity.
Qed.

(** X25. Join-family with a dead code: a signed-in, registered user who
    presents a code that is unknown or inactive, has expired, or has reached
    a non-zero [max_uses], is answered with the client error 400, and the
    store is left as it was: no grant, no use counted. *)
Theorem join_family_rejects_dead_code (ga : GoogleAuthService)
    (authorization : option jwt.token) (code : string) (now : datetime) (db : database)
    (payload : gmap string pyval) (email : string) (joiner : User) :
  get_current_user ga authorization now = Ok (Some payload) ->
  payload !! "email" = Some (PStr email) ->
  get_user_by_email db email = Some joiner ->
  get_invitation_code db code = None
  \/ (exists invitation,
        get_invitation_code db code = Some invitation
        /\ (is_expired invitation now = true
            \/ exists max_uses, ic_max_uses invitation = Some max_uses
                                /\ max_uses <> 0
                                /\ max_uses <= ic_current_uses invitation)) ->
  join_family_with_code ga authorization code now db
  = (Raise (HTTPException 400 (Msg "Invalid or expired invitation code")), db).
Proof.
  intros Hauth Hemail Huser Hdead.
  assert (Huse : use_invitation_code code (u_id joiner) now db = (Ok false, db)).
  { unfold use_invitation_code.
    destruct Hdead as [-> | (inv & -> & [He | (m & Hm & Hne & Hle)])]; [reflexivity| |].
    - rewrite He. reflexivity.
    - destruct (is_expired inv now); [reflexivity|].
      unfold max_uses_exceeded. rewrite Hm.
      destruct (Z.eqb_spec m 0); [contradiction|].
      destruct (Z.leb_spec m (ic_current_uses inv)); [reflexivity | lia]. }
  unfold join_family_with_code, bind, lift, raise, getitem.
  rewrite Hauth. simpl. rewrite Hemail. simpl. rewrite Huser, Huse. reflexivity.
Qed.

Lemma join_family_accepts_witness :
  exists magic db',
    join_family_with_code example_auth (session_cookie 2 "b@x.com" [] 3500000)
      "bullWXYZ5678" 4000000 db_two_uses
    = (Ok (FamilyJoined "bull" "bullWXYZ5678" magic), db')
    /\ get_user_families db' 2 = ["bull"].
Proof.
  destruct (session_cookie_authenticates 2 "b@x.com" [] 3500000 4000000
              ltac:(discriminate) ltac:(reflexivity)) as (payload & Hauth & Hemail).
  destruct (join_family_accepts example_auth _ "bullWXYZ5678" 4000000 db_two_uses payload
              "b@x.com" bob _ Hauth Hemail eq_refl eq_refl eq_refl eq_refl)
    as (magic & db' & Hrun & _ & Hfam & _).
  exists magic, db'. split; [exact Hrun | exact Hfam].
Defined.

Lemma joined_magic_link_logs_in_witness :
  exists magic db' session db'',
    join_family_with_code example_auth (session_cookie 2 "b@x.com" [] 3500000)
      "bullWXYZ5678" 4000000 db_two_uses
    = (Ok (FamilyJoined "bull" "bullWXYZ5678" magic), db')
    /\ magic_login example_auth magic 600000000 db'
       = (Ok (RedirectResponse (family_page "bull") (Some session)), db'')
    /\ family_access db'' = family_access db'.
Proof.
  destruct (session_cookie_authenticates 2 "b@x.com" [] 3500000 4000000
              ltac:(discriminate) ltac:(reflexivity)) as (payload & Hauth & Hemail).
  exact (joined_magic_link_logs_in example_auth _ "bullWXYZ5678" 4000000 600000000
           db_two_uses payload "b@x.com" bob _ Hauth Hemail eq_refl eq_refl eq_refl
           eq_refl ltac:(discriminate) ltac:(reflexivity)).
Defined.

Lemma join_family_rejects_dead_code_witness :
  join_family_with_code example_auth (session_cookie 2 "b@x.com" [] 89000000000)
    "bullWXYZ5678" 90000000000 db_two_uses
  = (Raise (HTTPException 400 (Msg "Invalid or expired invitation code")), db_two_uses).
Proof.
  destruct (session_cookie_authenticates 2 "b@x.com" [] 89000000000 90000000000
              ltac:(discriminate) ltac:(reflexivity)) as (payload & Hauth & Hemail).
  apply (join_family_rejects_dead_code example_auth _ "bullWXYZ5678" 90000000000
           db_two_uses payload "b@x.com" bob Hauth Hemail eq_refl).
  right. eexists. split; [reflexivity|]. left. reflexivity.
Defined.

Lemma use_invitation_code_refuses_witness :
  use_invitation_code "bullWXYZ5678" 2 90000000000 db_two_uses = (Ok false, db_two_uses)
  /\ use_invitation_code "nosuchcode" 2 4000000 db_two_uses = (Ok false, db_two_uses).
Proof.
  split.
  - apply (use_invitation_code_refuses db_two_uses "bullWXYZ5678" 2 90000000000).
    right. eexists. split; [reflexivity|]. left. reflexivity.
  - apply (use_invitation_code_refuses db_two_uses "nosuchcode" 2 4000000).
    left. reflexivity.
Defined.

(** ** Family names of the configuration *)

Lemma lstrip_idempotent (s : string) : Str.lstrip (Str.lstrip s) = Str.lstrip s.
Proof.
  induction s as [|a s IH]; cbn [Str.lstrip]; [reflexivity|].
  destruct (Str.isspace a) eqn:Ha; [exact IH|].
  cbn [Str.lstrip]. rewrite Ha. reflexivity.
Qed.

Lemma rstrip_idempotent (s : string) : Str.rstrip (Str.rstrip s) = Str.rstrip s.
Proof.
  induction s as [|a s IH]; cbn [Str.rstrip]; [reflexivity|].
  destruct (Str.rstrip s) as [|b r] eqn:Hr.
  - destruct (Str.isspace a) eqn:Ha; [reflexivity|].
    cbn [Str.rstrip]. rewrite Ha. reflexivity.
  - cbn [Str.rstrip]. cbn [Str.rstrip] in IH.
    change (match Str.rstrip r with
            | "" => if Str.isspace b then "" else String b ""
            | String a0 s0 => String b (String a0 s0)
            end) with (Str.rstrip (String b r)) in *.
    rewrite IH. reflexivity.
Qed.

Lemma lstrip_rstrip_lstrip (s : string) :
  Str.lstrip (Str.rstrip (Str.lstrip s)) = Str.rstrip (Str.lstrip s).
Proof.
  induction s as [|a s IH]; cbn [Str.lstrip]; [reflexivity|].
  destruct (Str.isspace a) eqn:Ha; [exact IH|].
  cbn [Str.rstrip]. destruct (Str.rstrip s); [rewrite Ha|];
    cbn [Str.lstrip]; rewrite Ha; reflexivity.
Qed.

Lemma strip_idempotent (s : string) : Str.strip (Str.strip s) = Str.strip s.
Proof.
  unfold Str.strip. rewrite lstrip_rstrip_lstrip. apply rstrip_idempotent.
Qed.

Lemma contains_lstrip (c : ascii) (s : string) :
  Str.contains c s = false -> Str.contains c (Str.lstrip s) = false.
Proof.
  induction s as [|a s IH]; cbn [Str.lstrip Str.contains]; [reflexivity|].
  destruct (Ascii.eqb a c) eqn:Hac; [discriminate|]. intros H.
  destruct (Str.isspace a); [auto|]. cbn [Str.contains]. rewrite Hac. exact H.
Qed.

Lemma contains_rstrip (c : ascii) (s : string) :
  Str.contains c s = false -> Str.contains c (Str.rstrip s) = false.
Proof.
  induction s as [|a s IH]; cbn [Str.rstrip Str.contains]; [reflexivity|].
  destruct (Ascii.eqb a c) eqn:Hac; [discriminate|]. intros H.
  specialize (IH H). destruct (Str.rstrip s) as [|b r].
  - destruct (Str.isspace a); [reflexivity|]. cbn [Str.contains]. rewrite Hac. reflexivity.
  - cbn [Str.contains] in *. rewrite Hac. exact IH.
Qed.

Lemma split_once_none (c : ascii) (s : string) :
  Str.split_once c s = None -> Str.contains c s = false.
Proof.
  induction s as [|a s IH]; cbn [Str.split_once Str.contains]; [reflexivity|].
  destruct (Ascii.eqb a c); [discriminate|].
  destruct (Str.split_once c s) as [[x y]|]; [discriminate | auto].
Qed.

Lemma split_once_length (c : ascii) (s x y : string) :
  Str.split_once c s = Some (x, y) ->
  String.length s = S (String.length x + String.length y).
Proof.
  revert x y. induction s as [|a s IH]; cbn [Str.split_once]; intros x y; [discriminate|].
  destruct (Ascii.eqb a c).
  - intros [= <- <-]. reflexivity.
  - destruct (Str.split_once c s) as [[x' y']|]; [|discriminate].
    intros [= <- <-]. simpl. rewrite (IH x' y' eq_refl). reflexivity.
Qed.

(** With enough cuts allowed, no part of a split contains the separator. *)
Lemma split_parts_clean (c : ascii) (n : nat) (s part : string) :
  (String.length s <= n)%nat ->
  part ∈ Str.split c n s ->
  Str.contains c part = false.
Proof.
  revert s. induction n as [|n IH]; intros s Hlen; cbn [Str.split].
  - intros Hin. apply list_elem_of_singleton in Hin as ->.
    destruct s; [reflexivity | simpl in Hlen; lia].
  - destruct (Str.split_once c s) as [[x y]|] eqn:Hs.
    + intros Hin. apply elem_of_cons in Hin as [-> | Hin].
      * exact (split_once_head c s x y Hs).
      * apply (IH y); [|exact Hin]. apply split_once_length in Hs. lia.
    + intros Hin. apply list_elem_of_singleton in Hin as ->.
      exact (split_once_none c s Hs).
Qed.

(** X26. The names that [is_valid_family] accepts are exactly as
    [get_valid_families] holds them: stripped, and free of commas. A name
    with a blank at either end is never valid, whatever [FAMILY_NAMES] is. *)
Theorem valid_family_is_stripped (FAMILY_NAMES : option string) (family_name : string) :
  is_valid_family FAMILY_NAMES family_name = true ->
  Str.strip family_name = family_name
  /\ Str.contains "," family_name = false.
Proof.
  unfold is_valid_family, get_valid_families. intros H.
  apply bool_decide_eq_true_1 in H.
  apply list_elem_of_fmap in H as (part & -> & Hin).
  split; [apply strip_idempotent|].
  unfold Str.strip. apply contains_rstrip, contains_lstrip.
  exact (split_parts_clean "," _ _ part (Nat.le_refl _) Hin).
Qed.

Lemma valid_family_is_stripped_witness :
  Str.strip "north" = "north" /\ Str.contains "," "north" = false.
Proof.
  apply (valid_family_is_stripped (Some " bull , north ,herrman") "north").
  reflexivity.
Defined.

(** ** Addresses accepted by the mail service *)

Lemma split_once_some (c : ascii) (s x y : string) :
  Str.split_once c s = Some (x, y) -> s = x +:+ String c y.
Proof.
  revert x y. induction s as [|a s IH]; cbn [Str.split_once]; intros x y; [discriminate|].
  destruct (Ascii.eqb_spec a c) as [->|].
  - intros [= <- <-]. reflexivity.
  - destruct (Str.split_once c s) as [[x' y']|]; [|discriminate].
    intros [= <- <-]. rewrite (IH x' y' eq_refl) at 1. reflexivity.
Qed.

Lemma contains_split_once (c : ascii) (s : string) :
  Str.contains c s = true -> exists x y, Str.split_once c s = Some (x, y).
Proof.
  induction s as [|a s IH]; cbn [Str.split_once Str.contains]; [discriminate|].
  destruct (Ascii.eqb a c); [eauto|].
  intros H. destruct (IH H) as (x & y & ->). eauto.
Qed.

Lemma split_without_separator (c : ascii) (n : nat) (s : string) :
  Str.contains c s = false -> Str.split c n s = [s].
Proof.
  intros H. destruct n as [|n]; cbn [Str.split]; [reflexivity|].
  destruct (Str.split_once c s) as [[x y]|] eqn:Hs; [|reflexivity].
  apply split_once_some in Hs. subst s. rewrite contains_append in H. discriminate H.
Qed.

Lemma split_with_separator (c : ascii) (n : nat) (s : string) :
  Str.contains c s = true -> (2 <= length (Str.split c (S n) s))%nat.
Proof.
  intros H. destruct (contains_split_once c s H) as (x & y & Hs).
  cbn [Str.split]. rewrite Hs. simpl.
  destruct n; cbn [Str.split]; [simpl; lia|].
  destruct (Str.split_once c y) as [[? ?]|]; simpl; lia.
Qed.

(** X27. [_is_valid_email] accepts exactly the addresses made of a part
    without an at sign, one at sign, and a part without an at sign that
    contains a dot; the part before the at sign may be empty. *)
Theorem is_valid_email_iff (email : string) :
  ses.is_valid_email email = true
  <-> exists local_part domain,
        email = local_part +:+ String "@" domain
        /\ Str.contains "@" local_part = false
        /\ Str.contains "@" domain = false
        /\ Str.contains "." domain = true.
Proof.
  unfold ses.is_valid_email, Str.split_all. split.
  - intros H. apply andb_true_iff in H as [H Hlen]. apply andb_true_iff in H as [Hat Hdot].
    destruct (contains_split_once "@" email Hat) as (x & y & Hs).
    pose proof (split_once_length "@" email x y Hs) as Hl.
    rewrite Hl in Hdot, Hlen. cbn [Str.split] in Hdot, Hlen. rewrite Hs in Hdot, Hlen.
    exists x, y. split; [exact (split_once_some "@" email x y Hs)|].
    split; [exact (split_once_head "@" email x y Hs)|].
    assert (Hy : Str.contains "@" y = false).
    { destruct (Str.contains "@" y) eqn:Hc; [|reflexivity]. exfalso.
      destruct (String.length x + String.length y)%nat as [|n] eqn:Hn.
      - destruct y; [discriminate Hc | simpl in Hn; lia].
      - pose proof (split_with_separator "@" n y Hc) as H2.
        cbn [length] in Hlen. apply Nat.eqb_eq in Hlen. lia. }
    split; [exact Hy|].
    rewrite (split_without_separator "@" _ y Hy) in Hdot. exact Hdot.
  - intros (x & y & -> & Hx & Hy & Hdot).
    assert (Hl : String.length (x +:+ String "@" y)
                 = S (String.length x + String.length y)).
    { apply (split_once_length "@" _ x y). apply split_once_append. exact Hx. }
    rewrite Hl. cbn [Str.split].
    rewrite (split_once_append "@" x y Hx), contains_append.
    rewrite (split_without_separator "@" _ y Hy). simpl. rewrite Hdot. reflexivity.
Qed.

(** ** Consent records *)


